(** * tempcdn: the in-memory file relay of [local-server.js]

    A shallow embedding of the Express handlers of [src/local-server.js]
    (upload, download, preview, the cleanup timer) together with the two
    helper functions [generateShortCode] and [isPreviewable], and the
    properties of the store they maintain.

    Conventions.
    - Node runs every handler and every timer callback to completion on one
      thread, so a run of the server is a sequence of atomic steps on the
      two global maps; requests that arrive in parallel are some
      interleaving of whole handlers.
    - The two [Map]s are association lists in insertion order, which is the
      order the [for ... of fileMetadata.entries()] scans follow.
    - Clock readings, the uuid and the random draw are inputs of a step.
    - Times are milliseconds as [Z]; buffers are lists of bytes. *)

From Stdlib Require Import String Ascii List ZArith NArith Lia Bool.
From Stdlib.Strings Require Import Byte.
Import ListNotations.

Local Open Scope string_scope.
Local Open Scope Z_scope.

(** ** JavaScript string primitives used by the source *)

Module Js.

(** [s.substring(a, b)]: the characters at positions [min a b] up to, not
    including, [max a b], cut at the end of [s]. *)
Definition substring (s : string) (a b : nat) : string :=
  String.substring (Nat.min a b) (Nat.max a b - Nat.min a b) s.

Definition upper_ascii (c : ascii) : ascii :=
  let n := nat_of_ascii c in
  if andb (Nat.leb 97 n) (Nat.leb n 122) then ascii_of_nat (n - 32) else c.

(** [s.toUpperCase()] on the ASCII strings the generator handles. *)
Fixpoint toUpperCase (s : string) : string :=
  match s with
  | EmptyString => EmptyString
  | String c r => String (upper_ascii c) (toUpperCase r)
  end.

(** [s.startsWith(p)] *)
Definition startsWith (s p : string) : bool := String.prefix p s.

(** [xs.includes(x)] on an array of strings *)
Definition includes (xs : list string) (x : string) : bool :=
  existsb (String.eqb x) xs.

(** Truthiness of a string value: only the empty string is falsy. *)
Definition truthy (s : string) : bool := negb (String.eqb s EmptyString).

(** *** [Number.prototype.toString(36)] on a fraction

    [Math.random()] returns a double in the interval from 0 (included) to
    1 (excluded), that is a dyadic fraction [m / 2^e] with [m < 2^e].
    [exact36 m e] is the exact base-36 expansion of that fraction, which
    terminates because 36 is even.  Engines print the digits of this
    expansion and stop as soon as the digits printed identify the double,
    so for a fraction whose expansion ends after a few digits (such as
    one half) the rendering is exactly this string. *)
Definition digit36 (d : N) : ascii :=
  if (d <? 10)%N then ascii_of_N (48 + d) else ascii_of_N (87 + d).

Fixpoint frac36 (fuel : nat) (m : N) (e : N) : string :=
  match fuel with
  | O => EmptyString
  | S k =>
      if (m =? 0)%N then EmptyString
      else let x := (m * 36)%N in
           String (digit36 (x / 2 ^ e)) (frac36 k (x mod 2 ^ e) e)
  end.

Definition exact36 (m e : N) : string :=
  if (m =? 0)%N then "0" else "0." ++ frac36 (S (N.to_nat e)) m e.

(** Shape of every rendering [Math.random().toString(36)] can have: the
    string [0], or [0.] followed by at least one lower-case base-36
    digit. *)
Definition is_digit36 (c : ascii) : bool :=
  let n := nat_of_ascii c in
  orb (andb (Nat.leb 48 n) (Nat.leb n 57)) (andb (Nat.leb 97 n) (Nat.leb n 122)).

Fixpoint all_chars (p : ascii -> bool) (s : string) : bool :=
  match s with
  | EmptyString => true
  | String c r => andb (p c) (all_chars p r)
  end.

Definition is_radix36 (s : string) : bool :=
  match s with
  | String "0" EmptyString => true
  | String "0" (String "." (String c r)) => all_chars is_digit36 (String c r)
  | _ => false
  end.

(** Node's [checkInvalidHeaderChar]: a header value may hold the tab and
    the characters 0x20 to 0x7e and 0x80 to 0xff; [res.setHeader] throws
    on any other. *)
Definition header_char_ok (c : ascii) : bool :=
  let n := nat_of_ascii c in
  orb (Nat.eqb n 9) (orb (andb (Nat.leb 32 n) (Nat.leb n 126)) (Nat.leb 128 n)).

Definition checkInvalidHeaderChar (s : string) : bool :=
  negb (all_chars header_char_ok s).

(** Upper-case letter or decimal digit. *)
Definition is_upper_alnum (c : ascii) : bool :=
  let n := nat_of_ascii c in
  orb (andb (Nat.leb 48 n) (Nat.leb n 57)) (andb (Nat.leb 65 n) (Nat.leb n 90)).

End Js.

(** ** Helpers of the server *)

(** [limits.fileSize]: 10 * 1024 * 1024 *)
Definition fileSize : Z := 10 * 1024 * 1024.

(** The three-hour lifetime, [3 * 60 * 60 * 1000] ms. *)
Definition TTL : Z := 3 * 60 * 60 * 1000.

Definition allowedTypes : list string :=
  [ "image/jpeg"; "image/jpg"; "image/png"; "image/gif"; "image/webp";
    "video/mp4"; "video/webm";
    "audio/mpeg"; "audio/wav";
    "text/plain"; "application/pdf" ].

(** [generateShortCode], as a function of the rendering [r36] of the random
    draw: [Math.random().toString(36).substring(2, 8).toUpperCase()]. *)
Definition generateShortCode (r36 : string) : string :=
  Js.toUpperCase (Js.substring r36 2 8).

Definition isPreviewable (mimetype : string) : bool :=
  Js.startsWith mimetype "image/" ||
  Js.startsWith mimetype "video/" ||
  Js.startsWith mimetype "audio/" ||
  Js.startsWith mimetype "text/" ||
  String.eqb mimetype "application/pdf".

(** ** The two global maps

    A JavaScript [Map] keeps its entries in insertion order; [set] on a key
    already present replaces the value in place, [delete] drops the entry. *)

Module JsMap.

Definition t (V : Type) : Type := list (string * V).

Definition empty {V : Type} : t V := [].

Fixpoint get {V : Type} (m : t V) (k : string) : option V :=
  match m with
  | [] => None
  | (k', v) :: r => if String.eqb k' k then Some v else get r k
  end.

Definition has {V : Type} (m : t V) (k : string) : bool :=
  match get m k with Some _ => true | None => false end.

Fixpoint set {V : Type} (m : t V) (k : string) (v : V) : t V :=
  match m with
  | [] => [(k, v)]
  | (k', v') :: r =>
      if String.eqb k' k then (k, v) :: r else (k', v') :: set r k v
  end.

Definition delete {V : Type} (m : t V) (k : string) : t V :=
  filter (fun e => negb (String.eqb (fst e) k)) m.

Definition keys {V : Type} (m : t V) : list string := map fst m.

End JsMap.

(** The file multer hands to the handler as [req.file]. *)
Record File : Type := mkFile {
  f_buffer : list byte;
  f_mimetype : string;
  f_originalname : string;
  f_size : Z
}.

(** Value kept in [fileStorage]. *)
Record FileData : Type := mkFileData {
  buffer : list byte;
  fd_mimetype : string;
  originalname : string;
  fd_size : Z
}.

(** Value kept in [fileMetadata].  [uploadTime] and the response's
    [expiresAt] are date renderings of a clock reading in the source; the
    reading itself is kept here. *)
Record Metadata : Type := mkMetadata {
  fileId : string;
  shortCode : string;
  originalName : string;
  size : Z;
  mimetype : string;
  uploadTime : Z;
  expirationTime : Z;
  previewable : bool;
  downloadUrl : string;
  previewUrl : option string
}.

Record Store : Type := mkStore {
  fileStorage : JsMap.t FileData;
  fileMetadata : JsMap.t Metadata
}.

Definition init : Store :=
  {| fileStorage := JsMap.empty; fileMetadata := JsMap.empty |}.

(** ** Responses *)

(** Body of the successful upload response. *)
Record ShareInfo : Type := mkShareInfo {
  r_shortCode : string;
  r_downloadUrl : string;
  r_previewUrl : option string;
  r_filename : string;
  r_size : Z;
  r_previewable : bool;
  r_expiresAt : Z
}.

(** Errors multer passes to [next] before the handler runs: the [Error] of
    [fileFilter], and the [LIMIT_FILE_SIZE] error of [limits.fileSize]. *)
Inductive MulterError : Type :=
| FileTypeNotAllowed
| LIMIT_FILE_SIZE.

Inductive Response : Type :=
| Uploaded (info : ShareInfo)                       (* res.json({success: true, ...}) *)
| Json (status : Z) (error : string)                (* res.status(n).json({error}) *)
| Send (disposition contentType : string) (body : list byte)
| Rejected (e : MulterError).                       (* next(err): handler not run *)

(** The spec's names for the failures. *)
Definition UnsupportedType : Response := Rejected FileTypeNotAllowed.
Definition PayloadTooLarge : Response := Rejected LIMIT_FILE_SIZE.
Definition NotFound (r : Response) : Prop :=
  exists msg, r = Json 404 msg.
Definition Expired : Response := Json 410 "File has expired".
Definition NotPreviewable : Response := Json 403 "File cannot be previewed".

(** ** The upload middleware and handlers *)

(** [upload.single('file')]: multer calls [fileFilter] when the part's
    headers arrive, before any byte of the body is read, and enforces
    [limits.fileSize] on the bytes that follow.  [None] is a request with
    no [file] field; the result [inr f] is what the handler sees as
    [req.file].  [f_size] is the byte count multer reports.

    Scope.  Only requests with no file part, or with one part under the
    field [file], are modelled; the other errors of multer (a file under
    another field, a body it cannot parse) end the request before the
    handler runs as well.  A file larger than the limit is refused by every
    version of the decoder; at exactly the limit the versions differ (the
    comparison below is the strict one), and no property in this file
    takes a side on that case. *)
Definition fileFilter (file : File) : bool :=
  Js.includes allowedTypes (f_mimetype file).

Definition upload_single (part : option File) : MulterError + option File :=
  match part with
  | None => inr None
  | Some file =>
      if fileFilter file then
        if f_size file >? fileSize then inl LIMIT_FILE_SIZE
        else inr (Some file)
      else inl FileTypeNotAllowed
  end.

(** The handler of [app.post('/upload')].  [uuid] is the value of
    [uuidv4()], [r36] the rendering of the random draw, [now] the reading
    of [Date.now()] and [clock] that of [new Date()]. *)
Definition upload_handler (st : Store) (req_file : option File)
    (uuid r36 : string) (now clock : Z) : Response * Store :=
  match req_file with
  | None => (Json 400 "No file selected or file type not supported", st)
  | Some file =>
      let fileId := uuid in
      let shortCode := generateShortCode r36 in
      let expirationTime := now + 3 * 60 * 60 * 1000 in
      let storage' :=
        JsMap.set (fileStorage st) fileId
          {| buffer := f_buffer file;
             fd_mimetype := f_mimetype file;
             originalname := f_originalname file;
             fd_size := f_size file |} in
      let metadata' :=
        JsMap.set (fileMetadata st) fileId
          {| fileId := fileId;
             shortCode := shortCode;
             originalName := f_originalname file;
             size := f_size file;
             mimetype := f_mimetype file;
             uploadTime := clock;
             expirationTime := expirationTime;
             previewable := isPreviewable (f_mimetype file);
             downloadUrl := "/api/download/" ++ shortCode;
             previewUrl :=
               if isPreviewable (f_mimetype file)
               then Some ("/api/preview/" ++ shortCode) else None |} in
      (Uploaded
         {| r_shortCode := shortCode;
            r_downloadUrl := "/api/download/" ++ shortCode;
            r_previewUrl :=
              if isPreviewable (f_mimetype file)
              then Some ("/api/preview/" ++ shortCode) else None;
            r_filename := f_originalname file;
            r_size := f_size file;
            r_previewable := isPreviewable (f_mimetype file);
            r_expiresAt := expirationTime |},
       {| fileStorage := storage'; fileMetadata := metadata' |})
  end.

(** The whole route: middleware, then handler. *)
Definition upload (st : Store) (part : option File)
    (uuid r36 : string) (now clock : Z) : Response * Store :=
  match upload_single part with
  | inl e => (Rejected e, st)
  | inr req_file => upload_handler st req_file uuid r36 now clock
  end.

(** The callback given to [setTimeout] by the upload of [fileId]. *)
Definition cleanup (st : Store) (fileId : string) : Store :=
  if JsMap.has (fileStorage st) fileId then
    {| fileStorage := JsMap.delete (fileStorage st) fileId;
       fileMetadata := JsMap.delete (fileMetadata st) fileId |}
  else st.

(** ** Download and preview *)

(** The scan [for (const [id, meta] of fileMetadata.entries())] with its
    [break] at the first entry whose [shortCode] is [code]. *)
Definition findByCode (st : Store) (code : string) : option (string * Metadata) :=
  find (fun e => String.eqb (shortCode (snd e)) code) (fileMetadata st).

(** The two [delete]s of the expired branch of a read. *)
Definition evict (st : Store) (fileId : string) : Store :=
  {| fileStorage := JsMap.delete (fileStorage st) fileId;
     fileMetadata := JsMap.delete (fileMetadata st) fileId |}.

Definition dquote : string := String (ascii_of_nat 34) EmptyString.

(** The two [res.setHeader] calls and [res.send] that end a successful
    read.  [setHeader] throws on a value it does not accept, and the
    handler's [catch] then answers 500 with its own message. *)
Definition respond (disposition failure : string)
    (metadata : Metadata) (fileData : FileData) : Response :=
  let cd := disposition ++ "; filename=" ++ dquote ++ originalName metadata ++ dquote in
  if Js.checkInvalidHeaderChar cd then Json 500 failure
  else if Js.checkInvalidHeaderChar (mimetype metadata) then Json 500 failure
  else Send cd (mimetype metadata) (buffer fileData).

Definition download (st : Store) (code : string) (now : Z) : Response * Store :=
  match findByCode st code with
  | None => (Json 404 "File not found", st)
  | Some (fileId, metadata) =>
      if negb (Js.truthy fileId) then (Json 404 "File not found", st)
      else
        match JsMap.get (fileStorage st) fileId with
        | None => (Json 404 "File data not found", st)
        | Some fileData =>
            if now >? expirationTime metadata then
              (Json 410 "File has expired", evict st fileId)
            else
              (respond "attachment" "Download failed" metadata fileData, st)
        end
  end.

Definition preview (st : Store) (code : string) (now : Z) : Response * Store :=
  match findByCode st code with
  | None => (Json 404 "File not found", st)
  | Some (fileId, metadata) =>
      if negb (Js.truthy fileId) then (Json 404 "File not found", st)
      else if negb (previewable metadata) then
        (Json 403 "File cannot be previewed", st)
      else
        match JsMap.get (fileStorage st) fileId with
        | None => (Json 404 "File data not found", st)
        | Some fileData =>
            if now >? expirationTime metadata then
              (Json 410 "File has expired", evict st fileId)
            else
              (respond "inline" "Preview failed" metadata fileData, st)
        end
  end.

(** ** Runs of the server *)

Inductive Event : Type :=
| EUpload (part : option File) (uuid r36 : string) (now clock : Z)
| EDownload (code : string) (now : Z)
| EPreview (code : string) (now : Z)
| ETimer (fileId : string).

Definition step (st : Store) (ev : Event) : Store :=
  match ev with
  | EUpload part uuid r36 now clock => snd (upload st part uuid r36 now clock)
  | EDownload code now => snd (download st code now)
  | EPreview code now => snd (preview st code now)
  | ETimer fileId => cleanup st fileId
  end.

Definition run (st : Store) (evs : list Event) : Store := fold_left step evs st.

(** Inputs the runtime can produce: [uuidv4()] is a 36-character string and
    the random draw renders as a base-36 fraction. *)
Definition wf_event (ev : Event) : bool :=
  match ev with
  | EUpload _ uuid r36 _ _ =>
      Nat.eqb (String.length uuid) 36 && Js.is_radix36 r36
  | _ => true
  end.

Definition Reachable (st : Store) : Prop :=
  exists evs, forallb wf_event evs = true /\ st = run init evs.

(** Short codes of the live objects, in map order. *)
Definition codes (st : Store) : list string :=
  map (fun e => shortCode (snd e)) (fileMetadata st).

Definition live (st : Store) (id : string) (meta : Metadata) : Prop :=
  In (id, meta) (fileMetadata st).

(** ** Predicates used by the statements *)

(** The invariant the maps keep: same ids, in the same order. *)
Definition synced (st : Store) : Prop :=
  JsMap.keys (fileStorage st) = JsMap.keys (fileMetadata st).

(** Each id is stored once. *)
Definition unique_ids (st : Store) : Prop :=
  NoDup (JsMap.keys (fileMetadata st)).

(** What every metadata entry written by the upload route looks like. *)
Definition entry_ok (e : string * Metadata) : Prop :=
  fileId (snd e) = fst e /\
  In (mimetype (snd e)) allowedTypes /\
  previewable (snd e) = true /\
  previewUrl (snd e) = Some ("/api/preview/" ++ shortCode (snd e)).

Definition entries_ok (st : Store) : Prop := Forall entry_ok (fileMetadata st).

Definition ids_truthy (st : Store) : Prop :=
  Forall (fun e => Js.truthy (fst e) = true) (fileMetadata st).

(** The rule for [previewable] as the specification words it: the
    top-level class of the content type (the text before its first slash)
    is image, video, audio or text, or the type is exactly
    application/pdf. *)
Fixpoint topLevelClass (m : string) : option string :=
  match m with
  | EmptyString => None
  | String c r =>
      if Ascii.eqb c "/" then Some EmptyString
      else option_map (String c) (topLevelClass r)
  end.

Definition no_slash (p : string) : bool :=
  Js.all_chars (fun c => negb (Ascii.eqb c "/")) p.

Definition spec_previewable (m : string) : bool :=
  match topLevelClass m with
  | Some cls => Js.includes ["image"; "video"; "audio"; "text"] cls
  | None => false
  end || String.eqb m "application/pdf".

(** An upload stores an object exactly when the middleware lets a file
    through; [fresh_run st evs] says that each such upload of the run draws
    a code carried by no object live at that moment. *)
Definition fresh_event (st : Store) (ev : Event) : bool :=
  match ev with
  | EUpload part _ r36 _ _ =>
      match upload_single part with
      | inr (Some _) => negb (Js.includes (codes st) (generateShortCode r36))
      | _ => true
      end
  | _ => true
  end.

Fixpoint fresh_run (st : Store) (evs : list Event) : bool :=
  match evs with
  | [] => true
  | ev :: r => fresh_event st ev && fresh_run (step st ev) r
  end.

(** ** Sample inputs *)

Module Sample.

Definition hello : list byte := [x68; x65; x6c; x6c; x6f].
Definition world : list byte := [x77; x6f; x72; x6c; x64].

Definition fileA : File := mkFile hello "text/plain" "a.txt" 5.
Definition fileB : File := mkFile world "image/png" "b.png" 5.
Definition zip : File := mkFile hello "application/zip" "c.zip" 5.
(** eleven MiB of a type outside the allow-list; only the reported size
    matters to the middleware *)
Definition bigZip : File :=
  mkFile [] "application/zip" "big.zip" (11 * 1024 * 1024).
Definition bigPng : File :=
  mkFile [] "image/png" "big.png" (10 * 1024 * 1024 + 1).

Definition uuidA : string := "11111111-1111-4111-8111-111111111111".
Definition uuidB : string := "22222222-2222-4222-8222-222222222222".

(** Three draws: 2025/4096, whose rendering has exactly six digits after
    the point; 2025/4096 + 2^-32, which lies less than 36^-6 above it, so
    that its rendering starts with the same six digits whatever number of
    further digits an engine prints; and 1365/4096. *)
Definition drawA : string := Js.exact36 2025 12.
Definition drawB : string := Js.exact36 (2025 * 2 ^ 20 + 1) 32.
Definition drawC : string := Js.exact36 1365 12.

Definition upA : Event := EUpload (Some fileA) uuidA drawA 1000 1000.
Definition upB : Event := EUpload (Some fileB) uuidB drawB 2000 2000.
Definition upC : Event := EUpload (Some fileB) uuidB drawC 2000 2000.

(** Both uploads live, same code. *)
Definition clash : Store := run init [upA; upB].
(** Both uploads live, different codes. *)
Definition apart : Store := run init [upA; upC].
Definition onlyA : Store := run init [upA].

Definition metaA : Metadata :=
  mkMetadata uuidA "HSQ0K9" "a.txt" 5 "text/plain" 1000 (1000 + TTL) true
    "/api/download/HSQ0K9" (Some "/api/preview/HSQ0K9").
Definition metaB : Metadata :=
  mkMetadata uuidB "HSQ0K9" "b.png" 5 "image/png" 2000 (2000 + TTL) true
    "/api/download/HSQ0K9" (Some "/api/preview/HSQ0K9").

(** a reading of the clock after both deadlines *)
Definition late : Z := 2000 + TTL + 1.

(** A file whose name starts with the control character 0x01, as a
    percent-encoded [filename*] parameter can carry. *)
Definition fileCtl : File :=
  mkFile hello "text/plain" (String (ascii_of_nat 1) ".txt") 5.
Definition withCtl : Store :=
  run init [EUpload (Some fileCtl) uuidA drawA 1000 1000].

(** What the handler alone stores for a type the middleware would have
    refused. *)
Definition unfiltered : Store :=
  snd (upload_handler init (Some zip) uuidA drawA 1000 1000).

End Sample.

(** ** Predicates for the further properties *)

(** Shape of a short code: at most six characters, each an upper-case
    letter or a digit. *)
Definition code_ok (c : string) : Prop :=
  (String.length c <= 6)%nat /\ Js.all_chars Js.is_upper_alnum c = true.

(** What the upload handler writes in a metadata entry, beyond
    [entry_ok]: the size passed the limit and the download URL is built
    from the code. *)
Definition entry_full (e : string * Metadata) : Prop :=
  fileId (snd e) = fst e /\
  size (snd e) <= fileSize /\
  In (mimetype (snd e)) allowedTypes /\
  previewable (snd e) = isPreviewable (mimetype (snd e)) /\
  downloadUrl (snd e) = "/api/download/" ++ shortCode (snd e).

(** A [fileStorage] entry and a [fileMetadata] entry describe the same
    upload. *)
Definition agrees (a : string * FileData) (b : string * Metadata) : Prop :=
  fst a = fst b /\
  fd_mimetype (snd a) = mimetype (snd b) /\
  originalname (snd a) = originalName (snd b) /\
  fd_size (snd a) = size (snd b).

Definition is_upload (ev : Event) : bool :=
  match ev with
  | EUpload _ _ _ _ _ => true
  | _ => false
  end.

(** * Properties *)

Example exact36_half : Js.exact36 1 1 = "0.i".
Proof. reflexivity. Qed.

Example exact36_zero : Js.exact36 0 0 = "0".
Proof. reflexivity. Qed.

Example exact36_1024th : Js.exact36 1 10 = "0.019k9".
Proof. vm_compute. reflexivity. Qed.

Example draws_rendered :
  Sample.drawA = "0.hsq0k9" /\ Sample.drawB = "0.hsq0k9i8u9q0vn29" /\
  Sample.drawC = "0.bzw7b9".
Proof. vm_compute. repeat split. Qed.

Example gen_typical : generateShortCode Sample.drawA = "HSQ0K9".
Proof. vm_compute. reflexivity. Qed.

Example clash_codes : codes Sample.clash = ["HSQ0K9"; "HSQ0K9"].
Proof. reflexivity. Qed.

Example clash_metadata :
  fileMetadata Sample.clash =
  [(Sample.uuidA, Sample.metaA); (Sample.uuidB, Sample.metaB)].
Proof. reflexivity. Qed.

(** ** The code generator *)

Section Generator.

Lemma substring_length_le (s : string) :
  forall n m, (String.length (String.substring n m s) <= m)%nat.
Proof.
  induction s as [|c s IH]; intros [|n] [|m]; simpl; try lia.
  - specialize (IH 0%nat m). lia.
  - apply (IH n 0%nat).
  - apply (IH n (S m)).
Qed.

Lemma substring_all_chars (p : ascii -> bool) (s : string) :
  Js.all_chars p s = true ->
  forall n m, Js.all_chars p (String.substring n m s) = true.
Proof.
  induction s as [|c s IH]; intros H [|n] [|m]; simpl in *; auto;
    apply andb_true_iff in H as [Hc Hs]; auto.
  rewrite Hc. simpl. auto.
Qed.

Lemma toUpperCase_length (s : string) :
  String.length (Js.toUpperCase s) = String.length s.
Proof. induction s; simpl; congruence. Qed.

Lemma upper_digit36 (c : ascii) :
  Js.is_digit36 c = true -> Js.is_upper_alnum (Js.upper_ascii c) = true.
Proof.
  destruct c as [b0 b1 b2 b3 b4 b5 b6 b7].
  destruct b0, b1, b2, b3, b4, b5, b6, b7; vm_compute; intro H;
    first [reflexivity | discriminate H].
Qed.

Lemma toUpperCase_alnum (s : string) :
  Js.all_chars Js.is_digit36 s = true ->
  Js.all_chars Js.is_upper_alnum (Js.toUpperCase s) = true.
Proof.
  induction s as [|c s IH]; simpl; auto.
  intro H. apply andb_true_iff in H as [Hc Hs].
  rewrite (upper_digit36 c Hc). simpl. auto.
Qed.

(** What does hold of every code: at most six characters, each an
    upper-case letter or a digit. *)
Lemma generateShortCode_shape (r36 : string) :
  Js.is_radix36 r36 = true ->
  (String.length (generateShortCode r36) <= 6)%nat /\
  Js.all_chars Js.is_upper_alnum (generateShortCode r36) = true.
Proof.
  intro H. unfold generateShortCode, Js.substring. split.
  - rewrite toUpperCase_length. apply (substring_length_le r36 2 6).
  - apply toUpperCase_alnum.
    destruct r36 as [|a [|b [|c r]]]; try reflexivity; try discriminate H.
    + unfold Js.is_radix36 in H.
      destruct (Ascii.eqb a "0") eqn:Ea; [|destruct a as [[] [] [] [] [] [] [] []]; discriminate].
      destruct (Ascii.eqb b ".") eqn:Eb; [|destruct a as [[] [] [] [] [] [] [] []]; try discriminate;
                                            destruct b as [[] [] [] [] [] [] [] []]; discriminate].
      apply Ascii.eqb_eq in Ea, Eb. subst a b.
      change (Js.all_chars Js.is_digit36 (String.substring 0 6 (String c r)) = true).
      apply substring_all_chars. exact H.
Qed.

Lemma substring_length_exact (s : string) :
  forall n m, (n + m <= String.length s)%nat ->
              String.length (String.substring n m s) = m.
Proof.
  induction s as [|c s IH]; intros [|n] [|m]; simpl; intro H;
    try reflexivity; try lia.
  - rewrite (IH 0%nat m); lia.
  - apply (IH n 0%nat). lia.
  - apply (IH n (S m)). lia.
Qed.

(** A rendering with six or more digits after the point gives a code of
    six characters. *)
Lemma generateShortCode_six (r36 : string) :
  (8 <= String.length r36)%nat ->
  String.length (generateShortCode r36) = 6%nat.
Proof.
  intro H. unfold generateShortCode, Js.substring.
  rewrite toUpperCase_length. apply (substring_length_exact r36 2 6). lia.
Qed.

End Generator.

(** ** Facts about the map operations *)

Section MapFacts.

Context {V W : Type}.
Implicit Types (m : JsMap.t V) (k : string).

Lemma has_keys m k : JsMap.has m k = true <-> In k (JsMap.keys m).
Proof.
  unfold JsMap.has. induction m as [|[k' v] r IH]; simpl.
  - split; [discriminate | tauto].
  - destruct (String.eqb_spec k' k) as [->|Hne].
    + split; auto.
    + rewrite IH. split; [auto | intros [E|H]; [congruence | exact H]].
Qed.

Lemma get_keys m k : JsMap.get m k <> None <-> In k (JsMap.keys m).
Proof.
  rewrite <- has_keys. unfold JsMap.has.
  destruct (JsMap.get m k); split; congruence.
Qed.

Lemma get_set_eq m k (v : V) : JsMap.get (JsMap.set m k v) k = Some v.
Proof.
  induction m as [|[k' v'] r IH]; simpl.
  - now rewrite String.eqb_refl.
  - destruct (String.eqb_spec k' k) as [->|Hne]; simpl.
    + now rewrite String.eqb_refl.
    + destruct (String.eqb_spec k' k); [contradiction | exact IH].
Qed.

Lemma in_set m k (v : V) e :
  In e (JsMap.set m k v) -> e = (k, v) \/ In e m.
Proof.
  induction m as [|[k' v'] r IH]; simpl.
  - intros [<-|[]]; auto.
  - destruct (String.eqb k' k); simpl; intros [<-|H]; auto.
    destruct (IH H); auto.
Qed.

Lemma in_delete m k e :
  In e (JsMap.delete m k) <-> In e m /\ fst e <> k.
Proof.
  unfold JsMap.delete. rewrite filter_In, negb_true_iff.
  destruct (String.eqb_spec (fst e) k); intuition congruence.
Qed.

Lemma has_delete m k : JsMap.has (JsMap.delete m k) k = false.
Proof.
  destruct (JsMap.has (JsMap.delete m k) k) eqn:E; auto.
  apply has_keys, in_map_iff in E as [e [Hk He]].
  apply in_delete in He as [_ Hne]. contradiction.
Qed.

(** [set] and [delete] act on the keys alone, so two maps with the same
    keys keep the same keys under the same update. *)
Lemma keys_set_sync m (m' : JsMap.t W) k (v : V) (w : W) :
  JsMap.keys m = JsMap.keys m' ->
  JsMap.keys (JsMap.set m k v) = JsMap.keys (JsMap.set m' k w).
Proof.
  revert m'. induction m as [|[k1 v1] r IH]; intros [|[k2 w2] r'] H;
    simpl in *; try discriminate; auto.
  injection H as -> Hr.
  destruct (String.eqb k2 k); simpl; f_equal; auto.
Qed.

Lemma keys_delete_sync m (m' : JsMap.t W) k :
  JsMap.keys m = JsMap.keys m' ->
  JsMap.keys (JsMap.delete m k) = JsMap.keys (JsMap.delete m' k).
Proof.
  revert m'. induction m as [|[k1 v1] r IH]; intros [|[k2 w2] r'] H;
    simpl in *; try discriminate; auto.
  injection H as -> Hr.
  destruct (String.eqb k2 k); simpl; f_equal; auto.
Qed.

Lemma nodup_map_filter (f : string * V -> W) (p : string * V -> bool) m :
  NoDup (map f m) -> NoDup (map f (filter p m)).
Proof.
  induction m as [|e r IH]; simpl; auto.
  intro H. inversion H as [|? ? Hn Hr]; subst.
  destruct (p e); simpl; auto. constructor; auto.
  intro Hin. apply Hn. apply in_map_iff in Hin as [x [Hx Hi]].
  apply in_map_iff. exists x. split; auto.
  apply filter_In in Hi. tauto.
Qed.

Lemma nodup_map_set (f : string * V -> W) m k (v : V) :
  NoDup (map f m) -> ~ In (f (k, v)) (map f m) ->
  NoDup (map f (JsMap.set m k v)).
Proof.
  induction m as [|[k' v'] r IH]; simpl; intros H Hn.
  - constructor; auto.
  - inversion H as [|? ? Hh Hr]; subst.
    destruct (String.eqb k' k); simpl.
    + constructor; auto.
    + constructor; auto.
      intro Hin. apply in_map_iff in Hin as [x [Hx Hi]].
      destruct (in_set _ _ _ _ Hi) as [->|Hi'].
      * apply Hn. left. symmetry. exact Hx.
      * apply Hh. apply in_map_iff. exists x. auto.
Qed.

Lemma nodup_keys_set m k (v : V) :
  NoDup (JsMap.keys m) -> NoDup (JsMap.keys (JsMap.set m k v)).
Proof.
  unfold JsMap.keys.
  induction m as [|[k' v'] r IH]; simpl; intros H.
  - constructor; [intros [] | constructor].
  - inversion H as [|? ? Hh Hr]; subst.
    destruct (String.eqb_spec k' k) as [->|Hne]; simpl.
    + constructor; auto.
    + constructor; auto.
      intro Hin. apply in_map_iff in Hin as [x [Hx Hi]].
      destruct (in_set _ _ _ _ Hi) as [->|Hi'].
      * simpl in Hx. congruence.
      * apply Hh. apply in_map_iff. exists x. auto.
Qed.

Lemma get_in m k (v : V) :
  NoDup (JsMap.keys m) -> In (k, v) m -> JsMap.get m k = Some v.
Proof.
  induction m as [|[k' v'] r IH]; simpl; intros H Hin; [contradiction|].
  destruct Hin as [E|Hin].
  - injection E as -> ->. now rewrite String.eqb_refl.
  - inversion H as [|? ? Hh Hr]; subst.
    destruct (String.eqb_spec k' k) as [->|Hne]; auto.
    exfalso. apply Hh. apply in_map_iff. exists (k, v). auto.
Qed.

End MapFacts.

(** ** Steps and runs *)

Section Steps.

Implicit Types (st : Store) (ev : Event).

Lemma run_snoc st evs ev : run st (evs ++ [ev]) = step (run st evs) ev.
Proof. unfold run. now rewrite fold_left_app. Qed.

Lemma run_invariant (P : Store -> Prop) :
  (forall st ev, P st -> P (step st ev)) ->
  forall evs st, P st -> P (run st evs).
Proof.
  intros Hstep evs. induction evs as [|ev evs IH]; simpl; auto.
Qed.

Lemma run_invariant_wf (P : Store -> Prop) :
  (forall st ev, wf_event ev = true -> P st -> P (step st ev)) ->
  forall evs st, forallb wf_event evs = true -> P st -> P (run st evs).
Proof.
  intros Hstep evs. induction evs as [|ev evs IH]; simpl; auto.
  intros st Hwf HP. apply andb_true_iff in Hwf as [H1 H2]. auto.
Qed.

(** A read either leaves the store as it is or answers 410 and evicts. *)
Lemma download_frame st code now :
  snd (download st code now) = st \/
  (fst (download st code now) = Expired /\
   exists id, snd (download st code now) = evict st id).
Proof.
  unfold download.
  destruct (findByCode st code) as [[id meta]|]; auto.
  destruct (negb (Js.truthy id)); auto.
  destruct (JsMap.get (fileStorage st) id); auto.
  destruct (now >? expirationTime meta); auto.
  right. split; [reflexivity | now exists id].
Qed.

Lemma preview_frame st code now :
  snd (preview st code now) = st \/
  (fst (preview st code now) = Expired /\
   exists id, snd (preview st code now) = evict st id).
Proof.
  unfold preview.
  destruct (findByCode st code) as [[id meta]|]; auto.
  destruct (negb (Js.truthy id)); auto.
  destruct (negb (previewable meta)); auto.
  destruct (JsMap.get (fileStorage st) id); auto.
  destruct (now >? expirationTime meta); auto.
  right. split; [reflexivity | now exists id].
Qed.

Lemma cleanup_cases st id : cleanup st id = st \/ cleanup st id = evict st id.
Proof. unfold cleanup. destruct (JsMap.has (fileStorage st) id); auto. Qed.

(** Every step is the identity, an eviction, or the two [set]s of an
    upload the middleware let through. *)
Lemma step_cases st ev :
  step st ev = st \/
  (exists id, step st ev = evict st id) \/
  (exists file uuid r36 now clock,
      ev = EUpload (Some file) uuid r36 now clock /\
      upload_single (Some file) = inr (Some file) /\
      step st ev = snd (upload_handler st (Some file) uuid r36 now clock)).
Proof.
  destruct ev as [part uuid r36 now clock|code now|code now|id]; simpl.
  - unfold upload. destruct part as [file|]; [|now left].
    destruct (upload_single (Some file)) as [e|req] eqn:E; [now left|].
    right; right. exists file, uuid, r36, now, clock.
    assert (req = Some file) as ->.
    { unfold upload_single in E.
      destruct (fileFilter file); [|discriminate].
      destruct (f_size file >? fileSize); [discriminate|]. congruence. }
    auto.
  - destruct (download_frame st code now) as [H|[_ H]]; auto.
  - destruct (preview_frame st code now) as [H|[_ H]]; auto.
  - destruct (cleanup_cases st id) as [H|H]; [auto|]. right; left. eauto.
Qed.

Lemma upload_single_pass file req :
  upload_single (Some file) = inr req ->
  req = Some file /\ In (f_mimetype file) allowedTypes /\ f_size file <= fileSize.
Proof.
  unfold upload_single, fileFilter, Js.includes. intro E.
  destruct (existsb _ allowedTypes) eqn:Ef; [|discriminate].
  destruct (f_size file >? fileSize) eqn:Es; [discriminate|].
  split; [congruence|]. split; [|lia].
  apply existsb_exists in Ef as [x [Hx Hm]].
  apply String.eqb_eq in Hm. now subst.
Qed.

(** *** The maps stay in step *)

Lemma synced_evict st id : synced st -> synced (evict st id).
Proof. unfold synced, evict. simpl. apply keys_delete_sync. Qed.

Lemma synced_upload st file uuid r36 now clock :
  synced st ->
  synced (snd (upload_handler st (Some file) uuid r36 now clock)).
Proof. unfold synced. simpl. apply keys_set_sync. Qed.

Lemma synced_step st ev : synced st -> synced (step st ev).
Proof.
  intro H.
  destruct (step_cases st ev) as [->|[[id ->]|(f & u & r & n & c & _ & _ & ->)]];
    auto using synced_evict, synced_upload.
Qed.

Lemma synced_run evs : synced (run init evs).
Proof. apply run_invariant; [apply synced_step | reflexivity]. Qed.

(** *** Each id is stored once *)

Lemma unique_ids_step st ev : unique_ids st -> unique_ids (step st ev).
Proof.
  unfold unique_ids. intro H.
  destruct (step_cases st ev) as [->|[[id ->]|(f & u & r & n & c & _ & _ & ->)]];
    simpl; auto.
  - apply nodup_map_filter. exact H.
  - apply nodup_keys_set. exact H.
Qed.

Lemma unique_ids_run evs : unique_ids (run init evs).
Proof. apply run_invariant; [apply unique_ids_step | constructor]. Qed.

End Steps.

(** ** What the stored entries look like *)

Section Entries.

Implicit Types (st : Store) (ev : Event).

Lemma allowed_previewable (m : string) :
  In m allowedTypes -> isPreviewable m = true.
Proof.
  unfold allowedTypes. simpl.
  intros H. repeat (destruct H as [<-|H]; [reflexivity|]). contradiction.
Qed.

Lemma forall_set {V : Type} (P : string * V -> Prop) (m : JsMap.t V) k v :
  Forall P m -> P (k, v) -> Forall P (JsMap.set m k v).
Proof.
  rewrite !Forall_forall. intros H Hk e He.
  destruct (in_set _ _ _ _ He) as [->|Hin]; auto.
Qed.

Lemma forall_delete {V : Type} (P : string * V -> Prop) (m : JsMap.t V) k :
  Forall P m -> Forall P (JsMap.delete m k).
Proof.
  rewrite !Forall_forall. intros H e He. apply in_delete in He. apply H, He.
Qed.

Lemma entries_ok_step st ev : entries_ok st -> entries_ok (step st ev).
Proof.
  unfold entries_ok. intro H.
  destruct (step_cases st ev) as [->|[[id ->]|(f & u & r & n & c & _ & Hp & ->)]];
    simpl; auto.
  - now apply forall_delete.
  - apply upload_single_pass in Hp as (_ & Hm & _).
    apply forall_set; auto.
    unfold entry_ok; simpl.
    rewrite (allowed_previewable _ Hm). auto.
Qed.

Lemma entries_ok_run evs : entries_ok (run init evs).
Proof. apply run_invariant; [apply entries_ok_step | constructor]. Qed.

Lemma truthy_uuid (uuid : string) :
  Nat.eqb (String.length uuid) 36 = true -> Js.truthy uuid = true.
Proof. destruct uuid; [discriminate | reflexivity]. Qed.

Lemma ids_truthy_step st ev :
  wf_event ev = true -> ids_truthy st -> ids_truthy (step st ev).
Proof.
  unfold ids_truthy. intros Hwf H.
  destruct (step_cases st ev) as [->|[[id ->]|(f & u & r & n & c & -> & _ & ->)]];
    simpl; auto.
  - now apply forall_delete.
  - apply forall_set; auto. simpl in *.
    apply andb_true_iff in Hwf as [Hu _]. now apply truthy_uuid.
Qed.

Lemma ids_truthy_run evs :
  forallb wf_event evs = true -> ids_truthy (run init evs).
Proof.
  intro H. apply run_invariant_wf; auto using ids_truthy_step. constructor.
Qed.

(** The scan returns a live entry that carries the code. *)
Lemma findByCode_some st code id meta :
  findByCode st code = Some (id, meta) ->
  live st id meta /\ shortCode meta = code.
Proof.
  unfold findByCode, live. intro H. apply find_some in H as [Hin Hc].
  split; auto. now apply String.eqb_eq in Hc.
Qed.

Lemma findByCode_none st code :
  findByCode st code = None <->
  (forall id meta, live st id meta -> shortCode meta <> code).
Proof.
  unfold findByCode, live. split.
  - intros H id meta Hin Hc.
    pose proof (find_none _ _ H _ Hin) as Hf. simpl in Hf.
    apply String.eqb_neq in Hf. contradiction.
  - intro H. destruct (find _ _) as [[id meta]|] eqn:E; auto.
    apply find_some in E as [Hin Hc]. simpl in Hc.
    apply String.eqb_eq in Hc. exfalso. eapply H; eauto.
Qed.

(** When one live object alone carries a code, the scan finds it. *)
Lemma findByCode_unique st id meta :
  unique_ids st -> live st id meta ->
  (forall id' meta', live st id' meta' ->
                     shortCode meta' = shortCode meta -> id' = id) ->
  findByCode st (shortCode meta) = Some (id, meta).
Proof.
  intros Hu Hl Hone.
  destruct (findByCode st (shortCode meta)) as [[id' meta']|] eqn:E.
  - apply findByCode_some in E as [Hl' Hc].
    pose proof (Hone _ _ Hl' Hc) as ->.
    pose proof (get_in _ _ _ Hu Hl) as G1.
    pose proof (get_in _ _ _ Hu Hl') as G2. congruence.
  - exfalso. rewrite findByCode_none in E. eapply E; eauto.
Qed.

End Entries.

(** ** Short codes of the live objects *)

Section Codes.

Implicit Types (st : Store) (ev : Event).

Lemma includes_in (xs : list string) (x : string) :
  Js.includes xs x = true <-> In x xs.
Proof.
  unfold Js.includes. rewrite existsb_exists. split.
  - intros [y [Hy E]]. apply String.eqb_eq in E. now subst.
  - intro H. exists x. split; auto. apply String.eqb_refl.
Qed.

Lemma fresh_step st ev :
  fresh_event st ev = true -> NoDup (codes st) -> NoDup (codes (step st ev)).
Proof.
  intros Hf H. unfold codes in *.
  destruct (step_cases st ev) as [->|[[id ->]|(f & u & r & n & c & -> & Hp & ->)]];
    simpl; auto.
  - now apply nodup_map_filter.
  - simpl in Hf. unfold upload_single in Hp, Hf.
    destruct (fileFilter f); [|discriminate].
    destruct (f_size f >? fileSize); [discriminate|].
    apply negb_true_iff in Hf.
    apply nodup_map_set; auto. simpl.
    intro Hin. apply includes_in in Hin. unfold codes in Hf. congruence.
Qed.

Lemma fresh_run_nodup evs :
  forall st, NoDup (codes st) -> fresh_run st evs = true ->
             NoDup (codes (run st evs)).
Proof.
  induction evs as [|ev evs IH]; simpl; auto.
  intros st H Hf. apply andb_true_iff in Hf as [H1 H2].
  apply IH; auto using fresh_step.
Qed.

Lemma nodup_map_eq {A B : Type} (f : A -> B) (l : list A) (x y : A) :
  NoDup (map f l) -> In x l -> In y l -> f x = f y -> x = y.
Proof.
  induction l as [|a l IH]; simpl; [contradiction|].
  intros H Hx Hy E. inversion H as [|? ? Hn Hr]; subst.
  destruct Hx as [->|Hx], Hy as [->|Hy]; auto.
  - exfalso. apply Hn. rewrite E. now apply in_map.
  - exfalso. apply Hn. rewrite <- E. now apply in_map.
Qed.

(** The scan after a [set] under a code no other entry carries. *)
Lemma find_set_fresh {V : Type} (p : string * V -> bool) (m : JsMap.t V) k v :
  p (k, v) = true -> (forall e, In e m -> p e = false) ->
  find p (JsMap.set m k v) = Some (k, v).
Proof.
  intros Hk. induction m as [|[k' v'] r IH]; simpl; intro Hm.
  - now rewrite Hk.
  - destruct (String.eqb k' k); simpl.
    + now rewrite Hk.
    + rewrite (Hm (k', v')); auto.
Qed.

Lemma all_chars_app (p : ascii -> bool) (s t : string) :
  Js.all_chars p (s ++ t) = Js.all_chars p s && Js.all_chars p t.
Proof.
  induction s as [|c s IH]; simpl; [reflexivity|].
  now rewrite IH, andb_assoc.
Qed.

(** The disposition header is accepted when the file name is. *)
Lemma disposition_ok (disposition name : string) :
  Js.checkInvalidHeaderChar disposition = false ->
  Js.checkInvalidHeaderChar name = false ->
  Js.checkInvalidHeaderChar
    (disposition ++ "; filename=" ++ dquote ++ name ++ dquote) = false.
Proof.
  unfold Js.checkInvalidHeaderChar. rewrite !negb_false_iff.
  intros Hd Hn. rewrite !all_chars_app, Hd, Hn. reflexivity.
Qed.

Lemma allowed_header_ok (m : string) :
  In m allowedTypes -> Js.checkInvalidHeaderChar m = false.
Proof.
  unfold allowedTypes. simpl.
  intros H. repeat (destruct H as [<-|H]; [reflexivity|]). contradiction.
Qed.

End Codes.

(** * Main results *)

(** C1, as the code has it.  The upload handler draws one code and stores
    it without looking at the codes in use.  In a run where every stored
    upload happens to draw a code that no live object carries at that
    moment, two live entries with the same short code are the same entry;
    the ids of the live entries are always pairwise different. *)
Theorem fresh_codes_distinct (evs : list Event) :
  fresh_run init evs = true ->
  unique_ids (run init evs) /\
  forall id1 meta1 id2 meta2,
    live (run init evs) id1 meta1 -> live (run init evs) id2 meta2 ->
    shortCode meta1 = shortCode meta2 -> id1 = id2 /\ meta1 = meta2.
Proof.
  intro Hf. split; [apply unique_ids_run|].
  intros id1 meta1 id2 meta2 H1 H2 E.
  assert (Hn : NoDup (codes (run init evs)))
    by (apply fresh_run_nodup; [constructor | exact Hf]).
  pose proof (nodup_map_eq _ _ (id1, meta1) (id2, meta2) Hn H1 H2 E) as Heq.
  injection Heq as -> ->. auto.
Qed.

Lemma fresh_codes_distinct_witness :
  fresh_run init [Sample.upA; Sample.upC] = true /\
  unique_ids Sample.apart /\
  forall id1 meta1 id2 meta2,
    live Sample.apart id1 meta1 -> live Sample.apart id2 meta2 ->
    shortCode meta1 = shortCode meta2 -> id1 = id2 /\ meta1 = meta2.
Proof.
  split; [reflexivity|].
  apply (fresh_codes_distinct [Sample.upA; Sample.upC]). reflexivity.
Defined.

(** C1 fails as stated: two uploads whose draws agree on their first six
    digits leave two live objects with different ids and the same short
    code. *)
Lemma upload_code_clash :
  Reachable Sample.clash /\
  live Sample.clash Sample.uuidA Sample.metaA /\
  live Sample.clash Sample.uuidB Sample.metaB /\
  Sample.uuidA <> Sample.uuidB /\
  shortCode Sample.metaA = shortCode Sample.metaB /\
  ~ NoDup (codes Sample.clash).
Proof.
  split; [exists [Sample.upA; Sample.upB]; split; reflexivity|].
  split; [left; reflexivity|].
  split; [right; left; reflexivity|].
  split; [discriminate|].
  split; [reflexivity|].
  intro H. inversion H as [|? ? Hn _]. apply Hn. left. reflexivity.
Qed.

(** C2, as the code has it.  In a store the server can reach, take a live
    object whose deadline has passed and which is the only live object
    carrying its short code.  Download and preview with that code both
    answer 410 and delete the object from both maps; afterwards the scan
    for the code finds nothing and both reads answer 404. *)
Theorem expired_read_evicts (st : Store) (id : string) (meta : Metadata) (now : Z) :
  Reachable st ->
  live st id meta ->
  now > expirationTime meta ->
  (forall id' meta', live st id' meta' ->
                     shortCode meta' = shortCode meta -> id' = id) ->
  download st (shortCode meta) now = (Expired, evict st id) /\
  preview st (shortCode meta) now = (Expired, evict st id) /\
  JsMap.has (fileStorage (evict st id)) id = false /\
  JsMap.has (fileMetadata (evict st id)) id = false /\
  findByCode (evict st id) (shortCode meta) = None /\
  forall now',
    NotFound (fst (download (evict st id) (shortCode meta) now')) /\
    NotFound (fst (preview (evict st id) (shortCode meta) now')).
Proof.
  intros [evs [Hwf ->]] Hl Hexp Hone.
  set (st := run init evs) in *.
  pose proof (unique_ids_run evs : unique_ids st) as Hu.
  pose proof (synced_run evs : synced st) as Hs.
  pose proof (entries_ok_run evs : entries_ok st) as Hok.
  pose proof (ids_truthy_run evs Hwf : ids_truthy st) as Ht.
  pose proof (findByCode_unique st id meta Hu Hl Hone) as Hfind.
  unfold entries_ok, ids_truthy in *. rewrite Forall_forall in Hok, Ht.
  destruct (Hok _ Hl) as (_ & _ & Hprev & _).
  pose proof (Ht _ Hl) as Htr. simpl in Htr, Hprev.
  assert (Hget : exists fd, JsMap.get (fileStorage st) id = Some fd).
  { destruct (JsMap.get (fileStorage st) id) as [fd|] eqn:G; [eauto|].
    exfalso. revert G. apply get_keys. rewrite Hs.
    apply in_map_iff. exists (id, meta). auto. }
  destruct Hget as [fd Hget].
  assert (Hgt : (now >? expirationTime meta) = true) by lia.
  assert (Hgone : findByCode (evict st id) (shortCode meta) = None).
  { apply findByCode_none. intros id' meta' Hl' Hc.
    unfold live, evict in Hl'. simpl in Hl'.
    apply in_delete in Hl' as [Hin Hne]. apply Hne. simpl. eapply Hone; eauto. }
  repeat split.
  - unfold download. now rewrite Hfind, Htr, Hget, Hgt.
  - unfold preview. now rewrite Hfind, Htr, Hprev, Hget, Hgt.
  - apply has_delete.
  - apply has_delete.
  - exact Hgone.
  - unfold download. rewrite Hgone. simpl. now eexists.
  - unfold preview. rewrite Hgone. simpl. now eexists.
Qed.

Lemma expired_read_evicts_witness :
  download Sample.onlyA "HSQ0K9" Sample.late = (Expired, init) /\
  preview Sample.onlyA "HSQ0K9" Sample.late = (Expired, init) /\
  findByCode init "HSQ0K9" = None.
Proof.
  assert (R : Reachable Sample.onlyA)
    by (exists [Sample.upA]; split; reflexivity).
  assert (L : live Sample.onlyA Sample.uuidA Sample.metaA)
    by (left; reflexivity).
  assert (E : Sample.late > expirationTime Sample.metaA)
    by (vm_compute; reflexivity).
  assert (U : forall id' meta', live Sample.onlyA id' meta' ->
              shortCode meta' = shortCode Sample.metaA -> id' = Sample.uuidA).
  { intros id' meta' [H|[]] _. now inversion H. }
  destruct (expired_read_evicts Sample.onlyA Sample.uuidA Sample.metaA
              Sample.late R L E U) as (D & P & _ & _ & F & _).
  exact (conj D (conj P F)).
Defined.

(** C2 fails as stated: with two live objects under one code, both past
    their deadline, a download with the code answers 410 but evicts the
    older one; the younger one is still stored and the scan for the code
    still finds it. *)
Lemma expired_twin_survives :
  Reachable Sample.clash /\
  live Sample.clash Sample.uuidB Sample.metaB /\
  Sample.late > expirationTime Sample.metaB /\
  fst (download Sample.clash (shortCode Sample.metaB) Sample.late) = Expired /\
  live (snd (download Sample.clash (shortCode Sample.metaB) Sample.late))
       Sample.uuidB Sample.metaB /\
  findByCode (snd (download Sample.clash (shortCode Sample.metaB) Sample.late))
             (shortCode Sample.metaB)
  = Some (Sample.uuidB, Sample.metaB).
Proof.
  split; [exists [Sample.upA; Sample.upB]; split; reflexivity|].
  split; [right; left; reflexivity|].
  split; [vm_compute; reflexivity|].
  split; [reflexivity|].
  split; [left; reflexivity | reflexivity].
Qed.

(** C3, as the code has it.  Take a successful upload whose code is not
    carried by any object that was already live, and whose file name holds
    only characters a header value may hold.  A download with the returned
    code, made no later than the returned deadline, answers with the
    uploaded bytes, the uploaded content type and an attachment disposition
    naming the original file, and leaves the store alone. *)
Theorem upload_then_download (st st' : Store) (part : option File)
    (uuid r36 : string) (now clock now' : Z) (info : ShareInfo) :
  wf_event (EUpload part uuid r36 now clock) = true ->
  upload st part uuid r36 now clock = (Uploaded info, st') ->
  ~ In (r_shortCode info) (codes st) ->
  Js.checkInvalidHeaderChar (r_filename info) = false ->
  now' <= r_expiresAt info ->
  exists file,
    part = Some file /\
    r_filename info = f_originalname file /\
    download st' (r_shortCode info) now' =
      (Send ("attachment; filename=" ++ dquote ++ f_originalname file ++ dquote)
            (f_mimetype file) (f_buffer file),
       st').
Proof.
  unfold upload. intros Hwf Hup Hfresh Hname Hnow.
  apply andb_true_iff in Hwf as [Hu _]. apply truthy_uuid in Hu.
  destruct part as [file|]; [|discriminate].
  destruct (upload_single (Some file)) as [e|req] eqn:E; [discriminate|].
  apply upload_single_pass in E as (-> & Hm & _).
  unfold upload_handler in Hup. injection Hup as <- <-.
  cbn [r_shortCode r_expiresAt r_filename] in *.
  exists file. split; [reflexivity|]. split; [reflexivity|].
  unfold download, findByCode. cbn [fileMetadata fileStorage].
  rewrite find_set_fresh.
  - rewrite Hu, get_set_eq. cbn [negb expirationTime].
    match goal with
    | |- context [?a >? ?b] =>
        destruct (Z.gtb_spec a b) as [Hgt|_]; [exfalso; lia|]
    end.
    unfold respond. cbn [originalName mimetype buffer].
    rewrite (disposition_ok "attachment" _ eq_refl Hname).
    now rewrite (allowed_header_ok _ Hm).
  - cbn [snd shortCode]. apply String.eqb_refl.
  - intros e He. apply String.eqb_neq. intro Hc. apply Hfresh.
    unfold codes. apply in_map_iff. exists e. auto.
Qed.

Lemma upload_then_download_witness :
  exists file,
    Some Sample.fileB = Some file /\
    r_filename
      {| r_shortCode := "BZW7B9";
         r_downloadUrl := "/api/download/BZW7B9";
         r_previewUrl := Some "/api/preview/BZW7B9";
         r_filename := "b.png";
         r_size := 5;
         r_previewable := true;
         r_expiresAt := 2000 + 3 * 60 * 60 * 1000 |} = f_originalname file /\
    download Sample.apart "BZW7B9" 2000 =
      (Send ("attachment; filename=" ++ dquote ++ f_originalname file ++ dquote)
            (f_mimetype file) (f_buffer file),
       Sample.apart).
Proof.
  apply (upload_then_download Sample.onlyA Sample.apart (Some Sample.fileB)
           Sample.uuidB Sample.drawC 2000 2000 2000).
  - reflexivity.
  - reflexivity.
  - simpl. intros [H|[]]. discriminate H.
  - reflexivity.
  - vm_compute. discriminate.
Defined.

(** A name the header does not accept makes [setHeader] throw: the
    download of a live, unexpired object then answers 500. *)
Example download_control_char_name :
  download Sample.withCtl "HSQ0K9" 2000 = (Json 500 "Download failed", Sample.withCtl).
Proof. reflexivity. Qed.

(** C3 fails as stated: the upload of [fileB] succeeds and returns the code
    that [fileA] already carries; the download made at once with that code
    answers with the bytes, type and name of [fileA]. *)
Lemma download_returns_older_twin :
  (exists info,
      upload Sample.onlyA (Some Sample.fileB) Sample.uuidB Sample.drawB 2000 2000
      = (Uploaded info, Sample.clash) /\
      r_shortCode info = "HSQ0K9" /\
      fst (download Sample.clash (r_shortCode info) 2000)
      = Send ("attachment; filename=" ++ dquote ++ "a.txt" ++ dquote)
             "text/plain" Sample.hello) /\
  f_buffer Sample.fileB <> Sample.hello.
Proof.
  split; [|discriminate].
  eexists. split; [reflexivity|]. split; reflexivity.
Qed.

(** ** The preview rule *)

Section PreviewRule.

(** [m.startsWith(p + '/')] says that the top-level class of [m] is [p]. *)
Lemma startsWith_class (p : string) :
  no_slash p = true ->
  forall m,
    Js.startsWith m (p ++ "/") =
    match topLevelClass m with
    | Some cls => String.eqb cls p
    | None => false
    end.
Proof.
  unfold Js.startsWith, no_slash.
  induction p as [|a p IH]; intros Hp [|c r];
    cbn [String.prefix String.append topLevelClass]; try reflexivity.
  - destruct (ascii_dec "/" c) as [<-|Hne].
    + now destruct r.
    + destruct (Ascii.eqb_spec c "/") as [->|_]; [contradiction|].
      destruct (topLevelClass r); reflexivity.
  - cbn [Js.all_chars] in Hp. apply andb_true_iff in Hp as [Ha Hp].
    apply negb_true_iff in Ha.
    destruct (ascii_dec a c) as [<-|Hne].
    + rewrite Ha, (IH Hp r).
      destruct (topLevelClass r); cbn [option_map String.eqb]; [|reflexivity].
      now rewrite Ascii.eqb_refl.
    + destruct (Ascii.eqb c "/"); cbn [String.eqb]; [reflexivity|].
      destruct (topLevelClass r); cbn [option_map String.eqb]; [|reflexivity].
      destruct (Ascii.eqb_spec c a); [congruence | reflexivity].
Qed.

Lemma isPreviewable_spec (m : string) : isPreviewable m = spec_previewable m.
Proof.
  unfold isPreviewable, spec_previewable.
  change "image/" with ("image" ++ "/").
  change "video/" with ("video" ++ "/").
  change "audio/" with ("audio" ++ "/").
  change "text/" with ("text" ++ "/").
  rewrite !startsWith_class by reflexivity.
  destruct (topLevelClass m) as [cls|]; [|reflexivity].
  unfold Js.includes, existsb.
  now rewrite !orb_false_r, !orb_assoc.
Qed.

End PreviewRule.

(** C4.  [isPreviewable] agrees with the rule of the specification on every
    content type; the handler stores, under the new id and the returned
    code, the flag that rule gives for the uploaded type; and a preview
    whose scan ends on an object with the flag off answers 403, store
    untouched. *)
Theorem previewable_rule :
  (forall m, isPreviewable m = spec_previewable m) /\
  (forall st file uuid r36 now clock,
      exists info meta,
        fst (upload_handler st (Some file) uuid r36 now clock) = Uploaded info /\
        JsMap.get (fileMetadata (snd (upload_handler st (Some file) uuid r36 now clock)))
                  uuid = Some meta /\
        shortCode meta = r_shortCode info /\
        mimetype meta = f_mimetype file /\
        previewable meta = spec_previewable (f_mimetype file) /\
        r_previewable info = previewable meta) /\
  (forall st code now id meta,
      findByCode st code = Some (id, meta) ->
      Js.truthy id = true ->
      previewable meta = false ->
      preview st code now = (NotPreviewable, st)).
Proof.
  split; [exact isPreviewable_spec|]. split.
  - intros st file uuid r36 now clock.
    unfold upload_handler. cbn [fst snd fileMetadata].
    eexists. eexists. split; [reflexivity|].
    split; [apply get_set_eq|].
    cbn [shortCode r_shortCode mimetype previewable r_previewable].
    rewrite isPreviewable_spec. auto.
  - intros st code now id meta Hf Ht Hp.
    unfold preview. now rewrite Hf, Ht, Hp.
Qed.

Lemma previewable_rule_witness :
  isPreviewable "application/zip" = spec_previewable "application/zip" /\
  preview Sample.unfiltered "HSQ0K9" 2000 = (NotPreviewable, Sample.unfiltered).
Proof.
  split.
  - exact (proj1 previewable_rule "application/zip").
  - eapply (proj2 (proj2 previewable_rule)); reflexivity.
Defined.

(** C5.  After any sequence of uploads, downloads, previews and timer
    callbacks the two maps hold the same ids (in the same order), so an id
    is in one exactly when it is in the other.  From such a store the timer
    callback of an id and the eviction done by an expired read leave the
    id in neither map, and the handler's two [set]s leave the new id in
    both. *)
Theorem maps_hold_same_ids (evs : list Event) :
  let st := run init evs in
  JsMap.keys (fileStorage st) = JsMap.keys (fileMetadata st) /\
  (forall id, JsMap.has (fileStorage st) id = JsMap.has (fileMetadata st) id) /\
  (forall id,
      JsMap.has (fileStorage (cleanup st id)) id = false /\
      JsMap.has (fileMetadata (cleanup st id)) id = false) /\
  (forall id,
      JsMap.has (fileStorage (evict st id)) id = false /\
      JsMap.has (fileMetadata (evict st id)) id = false) /\
  (forall file uuid r36 now clock,
      let st' := snd (upload_handler st (Some file) uuid r36 now clock) in
      JsMap.has (fileStorage st') uuid = true /\
      JsMap.has (fileMetadata st') uuid = true).
Proof.
  intro st. pose proof (synced_run evs : synced st) as Hs.
  assert (Hhas : forall id,
             JsMap.has (fileStorage st) id = JsMap.has (fileMetadata st) id).
  { intro id. apply eq_true_iff_eq. rewrite !has_keys. now rewrite Hs. }
  split; [exact Hs|]. split; [exact Hhas|]. split; [|split].
  - intro id. unfold cleanup.
    destruct (JsMap.has (fileStorage st) id) eqn:E; cbn [fileStorage fileMetadata].
    + split; apply has_delete.
    + split; [exact E | now rewrite <- Hhas].
  - intro id. split; apply has_delete.
  - intros file uuid r36 now clock. unfold upload_handler.
    cbn [snd fileStorage fileMetadata]. unfold JsMap.has.
    now rewrite !get_set_eq.
Qed.

(** C6 fails on the code.  A draw of one half renders in base 36 with a
    single digit after the point, and the generator returns the
    one-character code made of that digit; a draw of zero gives the empty
    code. *)
Theorem generateShortCode_short :
  Js.is_radix36 (Js.exact36 1 1) = true /\
  generateShortCode (Js.exact36 1 1) = "I" /\
  String.length (generateShortCode (Js.exact36 1 1)) = 1%nat /\
  generateShortCode (Js.exact36 0 0) = EmptyString.
Proof. repeat split. Qed.

(** C7, as the code has it.  An upload whose size exceeds the cap is
    refused by the middleware and both maps stay as they were.  The type
    filter runs on the headers of the part, before the size is known: the
    refusal is the size error when the content type is on the allow-list,
    and the type error when it is not. *)
Theorem oversize_upload_rejected (st : Store) (file : File)
    (uuid r36 : string) (now clock : Z) :
  f_size file > fileSize ->
  snd (upload st (Some file) uuid r36 now clock) = st /\
  (exists e, fst (upload st (Some file) uuid r36 now clock) = Rejected e) /\
  (In (f_mimetype file) allowedTypes ->
   upload st (Some file) uuid r36 now clock = (PayloadTooLarge, st)) /\
  (~ In (f_mimetype file) allowedTypes ->
   upload st (Some file) uuid r36 now clock = (UnsupportedType, st)).
Proof.
  intro Hsz. unfold upload, upload_single.
  assert (Hgt : (f_size file >? fileSize) = true) by lia.
  rewrite Hgt.
  destruct (fileFilter file) eqn:Ef; cbn [fst snd].
  - split; [reflexivity|]. split; [now eexists|]. split; [reflexivity|].
    intro Hn. exfalso. apply Hn. apply includes_in. exact Ef.
  - split; [reflexivity|]. split; [now eexists|]. split; [|reflexivity].
    intro Hin. apply includes_in in Hin. unfold fileFilter in Ef. congruence.
Qed.

Lemma oversize_upload_rejected_witness :
  f_size Sample.bigPng > fileSize /\
  upload Sample.onlyA (Some Sample.bigPng) Sample.uuidB Sample.drawC 2000 2000
  = (PayloadTooLarge, Sample.onlyA) /\
  f_size Sample.bigZip > fileSize /\
  upload Sample.onlyA (Some Sample.bigZip) Sample.uuidB Sample.drawC 2000 2000
  = (UnsupportedType, Sample.onlyA).
Proof.
  assert (H : f_size Sample.bigPng > fileSize) by (vm_compute; reflexivity).
  assert (H' : f_size Sample.bigZip > fileSize) by (vm_compute; reflexivity).
  split; [exact H|]. split.
  - apply (oversize_upload_rejected Sample.onlyA Sample.bigPng
             Sample.uuidB Sample.drawC 2000 2000 H).
    simpl. tauto.
  - split; [exact H'|].
    apply (oversize_upload_rejected Sample.onlyA Sample.bigZip
             Sample.uuidB Sample.drawC 2000 2000 H').
    simpl. intro Hin.
    repeat (destruct Hin as [Hin|Hin]; [discriminate Hin|]). exact Hin.
Defined.

(** C7 fails as stated: an upload of eleven MiB whose type is not on the
    allow-list is refused with the type error, not the size error. *)
Lemma oversize_zip_refused_for_type :
  f_size Sample.bigZip > fileSize /\
  upload init (Some Sample.bigZip) Sample.uuidA Sample.drawA 1000 1000
  = (UnsupportedType, init) /\
  UnsupportedType <> PayloadTooLarge.
Proof.
  split; [vm_compute; reflexivity|]. split; [reflexivity | discriminate].
Qed.

(** C8.  An upload whose content type is not, character for character, one
    of the eleven allowed types is refused with the type error and both
    maps stay as they were. *)
Theorem unsupported_type_rejected (st : Store) (file : File)
    (uuid r36 : string) (now clock : Z) :
  ~ In (f_mimetype file)
       [ "image/jpeg"; "image/jpg"; "image/png"; "image/gif"; "image/webp";
         "video/mp4"; "video/webm"; "audio/mpeg"; "audio/wav";
         "text/plain"; "application/pdf" ] ->
  upload st (Some file) uuid r36 now clock = (UnsupportedType, st).
Proof.
  intro Hn. unfold upload, upload_single.
  destruct (fileFilter file) eqn:Ef; [|reflexivity].
  exfalso. apply Hn. apply includes_in in Ef. exact Ef.
Qed.

Lemma unsupported_type_rejected_witness :
  upload Sample.onlyA (Some Sample.zip) Sample.uuidB Sample.drawC 2000 2000
  = (UnsupportedType, Sample.onlyA).
Proof.
  apply (unsupported_type_rejected Sample.onlyA Sample.zip).
  simpl. intro H.
  repeat (destruct H as [H|H]; [discriminate H|]). exact H.
Defined.

(** The allow-list compares case-sensitively. *)
Example upper_case_type_rejected :
  upload init (Some (mkFile Sample.hello "IMAGE/PNG" "x.png" 5))
         Sample.uuidA Sample.drawA 1000 1000
  = (UnsupportedType, init).
Proof. reflexivity. Qed.

(** C9.  Every allowed type is previewable; so after any sequence of
    operations every live object has the flag set and a preview URL, no
    preview answers 403, and every successful upload reports the flag set
    and a preview URL. *)
Theorem stored_objects_previewable (evs : list Event) :
  (forall m, In m allowedTypes -> isPreviewable m = true) /\
  (forall id meta,
      live (run init evs) id meta ->
      previewable meta = true /\
      previewUrl meta = Some ("/api/preview/" ++ shortCode meta)) /\
  (forall code now, fst (preview (run init evs) code now) <> NotPreviewable) /\
  (forall part uuid r36 now clock info st',
      upload (run init evs) part uuid r36 now clock = (Uploaded info, st') ->
      r_previewable info = true /\
      r_previewUrl info = Some ("/api/preview/" ++ r_shortCode info)).
Proof.
  set (st := run init evs).
  pose proof (entries_ok_run evs : entries_ok st) as Hok.
  unfold entries_ok in Hok. rewrite Forall_forall in Hok.
  split; [exact allowed_previewable|]. split; [|split].
  - intros id meta Hl.
    destruct (Hok _ Hl) as (_ & _ & Hp & Hu). cbn [snd] in Hp, Hu. auto.
  - intros code now. unfold preview.
    destruct (findByCode st code) as [[id' meta']|] eqn:E; [|discriminate].
    apply findByCode_some in E as [Hl' _].
    destruct (Hok _ Hl') as (_ & _ & Hp' & _). cbn [snd] in Hp'.
    rewrite Hp'. cbn [negb].
    destruct (negb (Js.truthy id')); [discriminate|].
    destruct (JsMap.get (fileStorage st) id'); [|discriminate].
    destruct (now >? expirationTime meta'); [discriminate|].
    unfold respond. cbn [fst].
    repeat match goal with
           | |- context [if ?b then _ else _] => destruct b
           end; discriminate.
  - intros part uuid r36 now clock info st' Hup. unfold upload in Hup.
    destruct part as [file|]; [|discriminate].
    destruct (upload_single (Some file)) as [e|req] eqn:E; [discriminate|].
    apply upload_single_pass in E as (-> & Hm & _).
    unfold upload_handler in Hup. injection Hup as <- _.
    cbn [r_previewable r_previewUrl r_shortCode].
    now rewrite (allowed_previewable _ Hm).
Qed.

Lemma stored_objects_previewable_witness :
  previewable Sample.metaB = true /\
  previewUrl Sample.metaB = Some ("/api/preview/" ++ shortCode Sample.metaB) /\
  fst (preview Sample.clash "HSQ0K9" 2000) <> NotPreviewable.
Proof.
  destruct (stored_objects_previewable [Sample.upA; Sample.upB])
    as (_ & L & N & _).
  destruct (L Sample.uuidB Sample.metaB) as [P U].
  - right; left; reflexivity.
  - exact (conj P (conj U (N "HSQ0K9" 2000))).
Defined.

(** C10.  A download or preview with a code that no live object carries
    answers 404 and returns the store as it was; and whenever a download or
    preview returns a store different from the one it was given, its answer
    is 410. *)
Theorem unknown_code_not_found (st : Store) (code : string) (now : Z) :
  ((forall id meta, live st id meta -> shortCode meta <> code) ->
   NotFound (fst (download st code now)) /\
   snd (download st code now) = st /\
   NotFound (fst (preview st code now)) /\
   snd (preview st code now) = st) /\
  (snd (download st code now) <> st -> fst (download st code now) = Expired) /\
  (snd (preview st code now) <> st -> fst (preview st code now) = Expired).
Proof.
  split; [|split].
  - intro H. apply findByCode_none in H.
    unfold download, preview. rewrite H. cbn [fst snd].
    split; [now eexists|]. split; [reflexivity|].
    split; [now eexists | reflexivity].
  - intro Hne.
    destruct (download_frame st code now) as [E|[E _]]; [contradiction | exact E].
  - intro Hne.
    destruct (preview_frame st code now) as [E|[E _]]; [contradiction | exact E].
Qed.

Lemma unknown_code_not_found_witness :
  NotFound (fst (download Sample.onlyA "ZZZZZZ" 2000)) /\
  snd (download Sample.onlyA "ZZZZZZ" 2000) = Sample.onlyA /\
  NotFound (fst (preview Sample.onlyA "ZZZZZZ" 2000)) /\
  snd (preview Sample.onlyA "ZZZZZZ" 2000) = Sample.onlyA.
Proof.
  apply (proj1 (unknown_code_not_found Sample.onlyA "ZZZZZZ" 2000)).
  intros id meta [H|[]]. inversion H. discriminate.
Defined.

(** The one read that changes the store: an expired object. *)
Example expired_read_changes_store :
  download Sample.onlyA "HSQ0K9" Sample.late = (Expired, init) /\
  snd (download Sample.onlyA "HSQ0K9" Sample.late) <> Sample.onlyA.
Proof. split; [reflexivity | discriminate]. Qed.

(** * Further properties of the server *)

Section MoreMapFacts.

Context {V W : Type}.
Implicit Types (m : JsMap.t V) (k : string).

Lemma get_set_ne m k k' (v : V) :
  k' <> k -> JsMap.get (JsMap.set m k v) k' = JsMap.get m k'.
Proof.
  intro Hne. induction m as [|[k1 v1] r IH]; simpl.
  - destruct (String.eqb_spec k k'); [congruence | reflexivity].
  - destruct (String.eqb_spec k1 k) as [->|H1]; simpl.
    + destruct (String.eqb_spec k k'); [congruence | reflexivity].
    + destruct (String.eqb k1 k'); [reflexivity | exact IH].
Qed.

Lemma get_delete_ne m k k' :
  k' <> k -> JsMap.get (JsMap.delete m k) k' = JsMap.get m k'.
Proof.
  intro Hne. induction m as [|[k1 v1] r IH]; simpl; [reflexivity|].
  destruct (String.eqb_spec k1 k) as [->|H1]; simpl.
  - destruct (String.eqb_spec k k'); [congruence | exact IH].
  - destruct (String.eqb k1 k'); [reflexivity | exact IH].
Qed.

Lemma delete_absent m k : ~ In k (JsMap.keys m) -> JsMap.delete m k = m.
Proof.
  induction m as [|[k1 v1] r IH]; simpl; intro H; [reflexivity|].
  destruct (String.eqb_spec k1 k) as [->|H1]; simpl.
  - exfalso. apply H. now left.
  - f_equal. apply IH. intro Hin. apply H. now right.
Qed.

Lemma set_absent m k (v : V) :
  ~ In k (JsMap.keys m) -> JsMap.set m k v = (m ++ [(k, v)])%list.
Proof.
  induction m as [|[k1 v1] r IH]; simpl; intro H; [reflexivity|].
  destruct (String.eqb_spec k1 k) as [->|H1].
  - exfalso. apply H. now left.
  - f_equal. apply IH. intro Hin. apply H. now right.
Qed.

Lemma delete_set_absent m k (v : V) :
  ~ In k (JsMap.keys m) -> JsMap.delete (JsMap.set m k v) k = m.
Proof.
  intro H. rewrite (set_absent _ _ _ H). unfold JsMap.delete.
  rewrite filter_app. simpl. rewrite String.eqb_refl. simpl.
  rewrite app_nil_r. apply (delete_absent _ _ H).
Qed.

Lemma delete_delete m k : JsMap.delete (JsMap.delete m k) k = JsMap.delete m k.
Proof.
  apply delete_absent. intro Hin. apply in_map_iff in Hin as [e [Hk He]].
  apply in_delete in He as [_ Hne]. contradiction.
Qed.

Lemma find_app_some (p : string * V -> bool) m (x e : string * V) :
  find p m = Some e -> find p (m ++ [x])%list = Some e.
Proof.
  induction m as [|a r IH]; simpl; [discriminate|].
  destruct (p a); auto.
Qed.

End MoreMapFacts.

Section CodeShape.

Lemma substring_length_min (s : string) :
  forall n m,
    String.length (String.substring n m s) = Nat.min m (String.length s - n).
Proof.
  induction s as [|c s IH]; intros [|n] [|m]; simpl; try reflexivity.
  - rewrite (IH 0%nat m). now rewrite Nat.sub_0_r.
  - apply (IH n 0%nat).
  - apply (IH n (S m)).
Qed.

Lemma codes_ok_step (st : Store) (ev : Event) :
  wf_event ev = true ->
  Forall (fun e => code_ok (shortCode (snd e))) (fileMetadata st) ->
  Forall (fun e => code_ok (shortCode (snd e))) (fileMetadata (step st ev)).
Proof.
  intros Hwf H.
  destruct (step_cases st ev) as [->|[[id ->]|(f & u & r & n & c & -> & _ & ->)]];
    simpl; auto.
  - now apply forall_delete.
  - apply forall_set; auto. simpl in *.
    apply andb_true_iff in Hwf as [_ Hr].
    exact (generateShortCode_shape r Hr).
Qed.

Lemma codes_ok_reachable (st : Store) :
  Reachable st -> Forall (fun e => code_ok (shortCode (snd e))) (fileMetadata st).
Proof.
  intros [evs [Hwf ->]].
  apply run_invariant_wf; [apply codes_ok_step | exact Hwf | constructor].
Qed.

End CodeShape.

(** X1.  The generator keeps the characters at positions 2 to 7 of the
    rendering: the code has as many characters as the rendering has after
    its first two, and never more than six. *)
Theorem generateShortCode_length (r36 : string) :
  String.length (generateShortCode r36) = Nat.min 6 (String.length r36 - 2).
Proof.
  unfold generateShortCode, Js.substring.
  rewrite toUpperCase_length. apply (substring_length_min r36 2 6).
Qed.

(** X2.  In a store the server can reach, the short code of every live
    object has at most six characters, each an upper-case letter or a
    decimal digit. *)
Theorem live_codes_shape (st : Store) (id : string) (meta : Metadata) :
  Reachable st ->
  live st id meta ->
  (String.length (shortCode meta) <= 6)%nat /\
  Js.all_chars Js.is_upper_alnum (shortCode meta) = true.
Proof.
  intros Hr Hl. pose proof (codes_ok_reachable st Hr) as H.
  rewrite Forall_forall in H. exact (H _ Hl).
Qed.

Lemma live_codes_shape_witness :
  (String.length (shortCode Sample.metaB) <= 6)%nat /\
  Js.all_chars Js.is_upper_alnum (shortCode Sample.metaB) = true.
Proof.
  apply (live_codes_shape Sample.clash Sample.uuidB Sample.metaB).
  - exists [Sample.upA; Sample.upB]. split; reflexivity.
  - right; left; reflexivity.
Defined.

(** X3.  The lookup compares codes exactly.  In a store the server can
    reach, a download or preview with a code that holds a character other
    than an upper-case letter or digit (a lower-case spelling of a live
    code, say), or that has more than six characters, answers 404 and
    leaves the store as it was. *)
Theorem malformed_code_not_found (st : Store) (code : string) (now : Z) :
  Reachable st ->
  Js.all_chars Js.is_upper_alnum code = false \/ (6 < String.length code)%nat ->
  download st code now = (Json 404 "File not found", st) /\
  preview st code now = (Json 404 "File not found", st).
Proof.
  intros Hr Hbad.
  assert (Hnone : findByCode st code = None).
  { apply findByCode_none. intros id meta Hl Hc.
    pose proof (codes_ok_reachable st Hr) as H.
    rewrite Forall_forall in H. destruct (H _ Hl) as [Hlen Hch].
    cbn [snd] in Hlen, Hch. rewrite Hc in Hlen, Hch.
    destruct Hbad as [Hb|Hb]; [congruence | lia]. }
  unfold download, preview. now rewrite Hnone.
Qed.

Lemma malformed_code_not_found_witness :
  download Sample.onlyA "hsq0k9" 2000 = (Json 404 "File not found", Sample.onlyA) /\
  preview Sample.onlyA "hsq0k9" 2000 = (Json 404 "File not found", Sample.onlyA).
Proof.
  apply (malformed_code_not_found Sample.onlyA "hsq0k9" 2000).
  - exists [Sample.upA]. split; reflexivity.
  - left. reflexivity.
Defined.

(** X4.  The upload route answers success only for a request that carries
    a file whose type is on the allow-list and whose size is at most
    10 MiB, and the name and size it reports are those of that file. *)
Theorem upload_accepts_only_if (st st' : Store) (part : option File)
    (uuid r36 : string) (now clock : Z) (info : ShareInfo) :
  upload st part uuid r36 now clock = (Uploaded info, st') ->
  exists file,
    part = Some file /\
    In (f_mimetype file) allowedTypes /\
    f_size file <= 10 * 1024 * 1024 /\
    r_filename info = f_originalname file /\
    r_size info = f_size file.
Proof.
  unfold upload. intro H. destruct part as [file|]; [|discriminate].
  destruct (upload_single (Some file)) as [e|req] eqn:E; [discriminate|].
  apply upload_single_pass in E as (-> & Hm & Hs).
  unfold upload_handler in H. injection H as <- _.
  exists file. cbn. auto.
Qed.

Lemma upload_accepts_only_if_witness :
  exists file,
    Some Sample.fileB = Some file /\
    In (f_mimetype file) allowedTypes /\
    f_size file <= 10 * 1024 * 1024 /\
    r_filename
      {| r_shortCode := "HSQ0K9";
         r_downloadUrl := "/api/download/HSQ0K9";
         r_previewUrl := Some "/api/preview/HSQ0K9";
         r_filename := "b.png";
         r_size := 5;
         r_previewable := true;
         r_expiresAt := 2000 + 3 * 60 * 60 * 1000 |} = f_originalname file /\
    r_size
      {| r_shortCode := "HSQ0K9";
         r_downloadUrl := "/api/download/HSQ0K9";
         r_previewUrl := Some "/api/preview/HSQ0K9";
         r_filename := "b.png";
         r_size := 5;
         r_previewable := true;
         r_expiresAt := 2000 + 3 * 60 * 60 * 1000 |} = f_size file.
Proof.
  apply (upload_accepts_only_if Sample.onlyA Sample.clash (Some Sample.fileB)
           Sample.uuidB Sample.drawB 2000 2000).
  reflexivity.
Defined.

(** X5.  An upload is all or nothing.  Either it answers with the share
    information, and then both maps hold, under the new id, an entry with
    the uploaded bytes, type, name and size, the code and URLs of the
    answer, and a deadline three hours after the clock reading; or the
    answer is not a success and the store is returned as it was. *)
Theorem upload_all_or_nothing (st : Store) (part : option File)
    (uuid r36 : string) (now clock : Z) :
  (exists file info fd meta,
      part = Some file /\
      fst (upload st part uuid r36 now clock) = Uploaded info /\
      JsMap.get (fileStorage (snd (upload st part uuid r36 now clock))) uuid = Some fd /\
      JsMap.get (fileMetadata (snd (upload st part uuid r36 now clock))) uuid = Some meta /\
      buffer fd = f_buffer file /\
      mimetype meta = f_mimetype file /\
      originalName meta = f_originalname file /\
      r_filename info = f_originalname file /\
      size meta = f_size file /\
      r_size info = f_size file /\
      shortCode meta = r_shortCode info /\
      downloadUrl meta = r_downloadUrl info /\
      previewUrl meta = r_previewUrl info /\
      previewable meta = r_previewable info /\
      expirationTime meta = now + 10800000 /\
      r_expiresAt info = now + 10800000) \/
  ((forall info, fst (upload st part uuid r36 now clock) <> Uploaded info) /\
   snd (upload st part uuid r36 now clock) = st).
Proof.
  unfold upload. destruct part as [file|].
  - destruct (upload_single (Some file)) as [e|req] eqn:E.
    + right. split; [discriminate | reflexivity].
    + apply upload_single_pass in E as (-> & _ & _). left.
      unfold upload_handler. cbn [fst snd fileStorage fileMetadata].
      do 4 eexists. split; [reflexivity|]. split; [reflexivity|].
      split; [apply get_set_eq|]. split; [apply get_set_eq|].
      cbn. repeat split; reflexivity.
  - right. cbn. split; [discriminate | reflexivity].
Qed.

Section Entries2.

Lemma entry_full_step (st : Store) (ev : Event) :
  Forall entry_full (fileMetadata st) ->
  Forall entry_full (fileMetadata (step st ev)).
Proof.
  intro H.
  destruct (step_cases st ev) as [->|[[id ->]|(f & u & r & n & c & _ & Hp & ->)]];
    simpl; auto.
  - now apply forall_delete.
  - apply upload_single_pass in Hp as (_ & Hm & Hs).
    apply forall_set; auto. unfold entry_full; simpl. auto.
Qed.

Lemma agrees_set (s : JsMap.t FileData) (m : JsMap.t Metadata) k fd meta :
  Forall2 agrees s m -> agrees (k, fd) (k, meta) ->
  Forall2 agrees (JsMap.set s k fd) (JsMap.set m k meta).
Proof.
  intros H Hk. induction H as [|[k1 a] [k2 b] s m Hab H IH]; simpl.
  - constructor; auto.
  - destruct Hab as [Hf Hr]. simpl in Hf. subst k2.
    destruct (String.eqb k1 k); constructor; auto. split; auto.
Qed.

Lemma agrees_delete (s : JsMap.t FileData) (m : JsMap.t Metadata) k :
  Forall2 agrees s m -> Forall2 agrees (JsMap.delete s k) (JsMap.delete m k).
Proof.
  intros H. induction H as [|[k1 a] [k2 b] s m Hab H IH]; simpl.
  - constructor.
  - pose proof Hab as [Hf _]. simpl in Hf. subst k2.
    destruct (String.eqb k1 k); simpl; auto.
Qed.

Lemma agrees_get (s : JsMap.t FileData) (m : JsMap.t Metadata) k fd meta :
  Forall2 agrees s m ->
  JsMap.get s k = Some fd -> JsMap.get m k = Some meta ->
  agrees (k, fd) (k, meta).
Proof.
  intros H. induction H as [|[k1 a] [k2 b] s m Hab H IH]; simpl; [discriminate|].
  pose proof Hab as [Hf Hr]. simpl in Hf. subst k2.
  destruct (String.eqb k1 k); auto.
  intros E1 E2. injection E1 as <-. injection E2 as <-.
  split; [reflexivity | exact Hr].
Qed.

Lemma agrees_step (st : Store) (ev : Event) :
  Forall2 agrees (fileStorage st) (fileMetadata st) ->
  Forall2 agrees (fileStorage (step st ev)) (fileMetadata (step st ev)).
Proof.
  intro H.
  destruct (step_cases st ev) as [->|[[id ->]|(f & u & r & n & c & _ & _ & ->)]];
    simpl; auto.
  - now apply agrees_delete.
  - apply agrees_set; auto. repeat split.
Qed.

End Entries2.

(** X6.  After any sequence of operations every live metadata entry is
    filed under its own [fileId], has a size of at most 10 MiB and a type
    from the allow-list, carries the flag [isPreviewable] gives for that
    type, and has the download URL built from its short code. *)
Theorem stored_within_limits (evs : list Event) (id : string) (meta : Metadata) :
  live (run init evs) id meta ->
  fileId meta = id /\
  size meta <= 10 * 1024 * 1024 /\
  In (mimetype meta) allowedTypes /\
  previewable meta = isPreviewable (mimetype meta) /\
  downloadUrl meta = "/api/download/" ++ shortCode meta.
Proof.
  intro Hl.
  assert (H : Forall entry_full (fileMetadata (run init evs)))
    by (apply run_invariant; [apply entry_full_step | constructor]).
  rewrite Forall_forall in H. exact (H _ Hl).
Qed.

Lemma stored_within_limits_witness :
  fileId Sample.metaB = Sample.uuidB /\
  size Sample.metaB <= 10 * 1024 * 1024 /\
  In (mimetype Sample.metaB) allowedTypes /\
  previewable Sample.metaB = isPreviewable (mimetype Sample.metaB) /\
  downloadUrl Sample.metaB = "/api/download/" ++ shortCode Sample.metaB.
Proof.
  apply (stored_within_limits [Sample.upA; Sample.upB] Sample.uuidB Sample.metaB).
  right; left; reflexivity.
Defined.

(** X7.  After any sequence of operations the payload entry and the
    metadata entry of an id describe the same upload: they agree on the
    content type, the original name and the size. *)
Theorem storage_metadata_agree (evs : list Event) (id : string)
    (fd : FileData) (meta : Metadata) :
  JsMap.get (fileStorage (run init evs)) id = Some fd ->
  JsMap.get (fileMetadata (run init evs)) id = Some meta ->
  fd_mimetype fd = mimetype meta /\
  originalname fd = originalName meta /\
  fd_size fd = size meta.
Proof.
  intros Hs Hm.
  assert (H : Forall2 agrees (fileStorage (run init evs)) (fileMetadata (run init evs))).
  { apply (run_invariant (fun st => Forall2 agrees (fileStorage st) (fileMetadata st)));
      [apply agrees_step | constructor]. }
  destruct (agrees_get _ _ _ _ _ H Hs Hm) as (_ & A & B & C). auto.
Qed.

Lemma storage_metadata_agree_witness :
  fd_mimetype (mkFileData Sample.world "image/png" "b.png" 5) = mimetype Sample.metaB /\
  originalname (mkFileData Sample.world "image/png" "b.png" 5) = originalName Sample.metaB /\
  fd_size (mkFileData Sample.world "image/png" "b.png" 5) = size Sample.metaB.
Proof.
  apply (storage_metadata_agree [Sample.upA; Sample.upB] Sample.uuidB); reflexivity.
Defined.

(** X8.  The timer and the expired read remove an object in the same way.
    After any sequence of operations the timer callback of an id returns
    the store the eviction of that id returns; a timer that fires after the
    object was already evicted by a read, or fires twice, changes nothing
    more; and the callback of an id that is not stored returns the store as
    it was. *)
Theorem timer_matches_eviction (evs : list Event) (id : string) :
  cleanup (run init evs) id = evict (run init evs) id /\
  cleanup (evict (run init evs) id) id = evict (run init evs) id /\
  cleanup (cleanup (run init evs) id) id = cleanup (run init evs) id /\
  (~ In id (JsMap.keys (fileMetadata (run init evs))) ->
   cleanup (run init evs) id = run init evs).
Proof.
  set (st := run init evs).
  pose proof (synced_run evs : synced st) as Hs.
  assert (Hgone : cleanup (evict st id) id = evict st id).
  { unfold cleanup. cbn [evict fileStorage]. now rewrite has_delete. }
  assert (Heq : cleanup st id = evict st id).
  { unfold cleanup. destruct (JsMap.has (fileStorage st) id) eqn:E; [reflexivity|].
    assert (Hn : ~ In id (JsMap.keys (fileStorage st))).
    { intro Hin. apply has_keys in Hin. congruence. }
    unfold evict. rewrite (delete_absent _ _ Hn).
    rewrite Hs in Hn. rewrite (delete_absent _ _ Hn). now destruct st. }
  split; [exact Heq|]. split; [exact Hgone|]. split.
  - now rewrite Heq.
  - intro Hn. unfold cleanup.
    destruct (JsMap.has (fileStorage st) id) eqn:E; [|reflexivity].
    apply has_keys in E. rewrite Hs in E. contradiction.
Qed.

(** X9.  Removing one object touches no other: for an id different from
    the one removed, the timer callback and the eviction leave its payload
    entry and its metadata entry as they were. *)
Theorem eviction_frame (st : Store) (id id' : string) :
  id' <> id ->
  JsMap.get (fileStorage (evict st id)) id' = JsMap.get (fileStorage st) id' /\
  JsMap.get (fileMetadata (evict st id)) id' = JsMap.get (fileMetadata st) id' /\
  JsMap.get (fileStorage (cleanup st id)) id' = JsMap.get (fileStorage st) id' /\
  JsMap.get (fileMetadata (cleanup st id)) id' = JsMap.get (fileMetadata st) id'.
Proof.
  intro Hne.
  assert (A : JsMap.get (fileStorage (evict st id)) id' = JsMap.get (fileStorage st) id')
    by apply (get_delete_ne _ _ _ Hne).
  assert (B : JsMap.get (fileMetadata (evict st id)) id' = JsMap.get (fileMetadata st) id')
    by apply (get_delete_ne _ _ _ Hne).
  split; [exact A|]. split; [exact B|].
  destruct (cleanup_cases st id) as [->| ->]; auto.
Qed.

Lemma eviction_frame_witness :
  JsMap.get (fileStorage (evict Sample.clash Sample.uuidA)) Sample.uuidB
  = JsMap.get (fileStorage Sample.clash) Sample.uuidB /\
  JsMap.get (fileMetadata (evict Sample.clash Sample.uuidA)) Sample.uuidB
  = JsMap.get (fileMetadata Sample.clash) Sample.uuidB /\
  JsMap.get (fileStorage (cleanup Sample.clash Sample.uuidA)) Sample.uuidB
  = JsMap.get (fileStorage Sample.clash) Sample.uuidB /\
  JsMap.get (fileMetadata (cleanup Sample.clash Sample.uuidA)) Sample.uuidB
  = JsMap.get (fileMetadata Sample.clash) Sample.uuidB.
Proof.
  apply (eviction_frame Sample.clash Sample.uuidA Sample.uuidB). discriminate.
Defined.

Section Reads.

Lemma header_prefix (d x : string) :
  Js.checkInvalidHeaderChar d = false ->
  Js.checkInvalidHeaderChar (d ++ x) = Js.checkInvalidHeaderChar x.
Proof.
  unfold Js.checkInvalidHeaderChar. rewrite negb_false_iff. intro H.
  now rewrite all_chars_app, H.
Qed.

(** The two renderings of a successful read succeed or fail together. *)
Lemma respond_both (meta : Metadata) (fd : FileData) :
  (exists d d', respond "attachment" "Download failed" meta fd = Send d (mimetype meta) (buffer fd) /\
                respond "inline" "Preview failed" meta fd = Send d' (mimetype meta) (buffer fd)) \/
  (respond "attachment" "Download failed" meta fd = Json 500 "Download failed" /\
   respond "inline" "Preview failed" meta fd = Json 500 "Preview failed").
Proof.
  unfold respond.
  rewrite (header_prefix "attachment" _ eq_refl), (header_prefix "inline" _ eq_refl).
  destruct (Js.checkInvalidHeaderChar _); [now right|].
  destruct (Js.checkInvalidHeaderChar (mimetype meta)); [now right|].
  left. eauto.
Qed.

Lemma live_has_data (evs : list Event) (id : string) (meta : Metadata) :
  live (run init evs) id meta ->
  exists fd, JsMap.get (fileStorage (run init evs)) id = Some fd.
Proof.
  intro Hl. destruct (JsMap.get (fileStorage (run init evs)) id) as [fd|] eqn:G; [eauto|].
  exfalso. revert G. apply get_keys. rewrite (synced_run evs).
  apply in_map_iff. exists (id, meta). auto.
Qed.

End Reads.

(** X10.  An upload under a new id never changes what an existing code
    resolves to: a code that the scan finds before the upload is resolved
    to the same entry after it, and download and preview give the same
    answer for it. *)
Theorem upload_keeps_older (st : Store) (part : option File)
    (uuid r36 : string) (now clock : Z) (code : string) (now' : Z) :
  ~ In uuid (JsMap.keys (fileMetadata st)) ->
  findByCode st code <> None ->
  findByCode (snd (upload st part uuid r36 now clock)) code = findByCode st code /\
  fst (download (snd (upload st part uuid r36 now clock)) code now')
  = fst (download st code now') /\
  fst (preview (snd (upload st part uuid r36 now clock)) code now')
  = fst (preview st code now').
Proof.
  intros Hnew Hfound. unfold upload.
  destruct part as [file|]; [|cbn; auto].
  destruct (upload_single (Some file)) as [e|req] eqn:E; [cbn; auto|].
  apply upload_single_pass in E as (-> & _ & _).
  unfold upload_handler. cbn [snd].
  destruct (findByCode st code) as [[id meta]|] eqn:F; [clear Hfound | congruence].
  assert (Hne : id <> uuid).
  { intros ->. apply Hnew. apply findByCode_some in F as [Hl _].
    apply in_map_iff. exists (uuid, meta). auto. }
  match goal with
  | |- findByCode ?s' _ = _ /\ _ => set (st' := s')
  end.
  assert (F' : findByCode st' code = Some (id, meta)).
  { unfold findByCode, st'. cbn [fileMetadata].
    rewrite (set_absent _ _ _ Hnew). now apply find_app_some. }
  assert (G : JsMap.get (fileStorage st') id = JsMap.get (fileStorage st) id).
  { unfold st'. cbn [fileStorage]. now apply get_set_ne. }
  split; [exact F'|].
  unfold download, preview. rewrite F', F, G.
  destruct (negb (Js.truthy id)); [auto|].
  destruct (negb (previewable meta));
    destruct (JsMap.get (fileStorage st) id); auto;
    destruct (now' >? expirationTime meta); auto.
Qed.

Lemma upload_keeps_older_witness :
  findByCode Sample.clash "HSQ0K9" = findByCode Sample.onlyA "HSQ0K9" /\
  fst (download Sample.clash "HSQ0K9" 3000) = fst (download Sample.onlyA "HSQ0K9" 3000) /\
  fst (preview Sample.clash "HSQ0K9" 3000) = fst (preview Sample.onlyA "HSQ0K9" 3000).
Proof.
  apply (upload_keeps_older Sample.onlyA (Some Sample.fileB) Sample.uuidB
           Sample.drawB 2000 2000 "HSQ0K9" 3000).
  - simpl. intros [H|[]]. discriminate H.
  - discriminate.
Defined.

(** X11.  After any sequence of operations preview and download treat a
    code alike: they return the same store, an error status of one is the
    status of the other, and when download sends a body with a content
    type, preview sends the same body with the same content type. *)
Theorem preview_mirrors_download (evs : list Event) (code : string) (now : Z) :
  snd (preview (run init evs) code now) = snd (download (run init evs) code now) /\
  (forall status msg,
      fst (download (run init evs) code now) = Json status msg ->
      exists msg', fst (preview (run init evs) code now) = Json status msg') /\
  (forall d ct body,
      fst (download (run init evs) code now) = Send d ct body ->
      exists d', fst (preview (run init evs) code now) = Send d' ct body).
Proof.
  set (st := run init evs).
  pose proof (entries_ok_run evs : entries_ok st) as Hok.
  unfold entries_ok in Hok. rewrite Forall_forall in Hok.
  unfold download, preview.
  destruct (findByCode st code) as [[id meta]|] eqn:F.
  - apply findByCode_some in F as [Hl _].
    destruct (Hok _ Hl) as (_ & _ & Hp & _). cbn [snd] in Hp. rewrite Hp.
    cbn [negb].
    destruct (negb (Js.truthy id)).
    { cbn. split; [reflexivity|]. split; intros; [injection H as <- <-; eauto | discriminate]. }
    destruct (JsMap.get (fileStorage st) id) as [fd|].
    2:{ cbn. split; [reflexivity|]. split; intros; [injection H as <- <-; eauto | discriminate]. }
    destruct (now >? expirationTime meta).
    { cbn. split; [reflexivity|]. split; intros; [injection H as <- <-; eauto | discriminate]. }
    cbn [fst snd]. split; [reflexivity|].
    destruct (respond_both meta fd) as [(d & d' & -> & ->)|[-> ->]].
    + split; intros; [discriminate|]. injection H as _ <- <-. eauto.
    + split; intros; [injection H as <- _; eauto | discriminate].
  - cbn. split; [reflexivity|]. split; intros; [injection H as <- <-; eauto | discriminate].
Qed.

(** X12.  In a store the server can reach, take a live object that alone
    carries its short code and whose name holds only characters a header
    value may hold.  Up to and including its deadline, download and preview
    with the code send the stored bytes with the stored content type,
    naming the original file, as attachment and inline respectively, and
    leave the store as it was. *)
Theorem unexpired_read_serves (st : Store) (id : string) (meta : Metadata) (now : Z) :
  Reachable st ->
  live st id meta ->
  (forall id' meta', live st id' meta' ->
                     shortCode meta' = shortCode meta -> id' = id) ->
  Js.checkInvalidHeaderChar (originalName meta) = false ->
  now <= expirationTime meta ->
  exists fd,
    JsMap.get (fileStorage st) id = Some fd /\
    download st (shortCode meta) now =
      (Send ("attachment; filename=" ++ dquote ++ originalName meta ++ dquote)
            (mimetype meta) (buffer fd), st) /\
    preview st (shortCode meta) now =
      (Send ("inline; filename=" ++ dquote ++ originalName meta ++ dquote)
            (mimetype meta) (buffer fd), st).
Proof.
  intros [evs [Hwf ->]] Hl Hone Hname Hnow.
  set (st := run init evs) in *.
  pose proof (unique_ids_run evs : unique_ids st) as Hu.
  pose proof (entries_ok_run evs : entries_ok st) as Hok.
  pose proof (ids_truthy_run evs Hwf : ids_truthy st) as Ht.
  pose proof (findByCode_unique st id meta Hu Hl Hone) as Hfind.
  unfold entries_ok, ids_truthy in *. rewrite Forall_forall in Hok, Ht.
  destruct (Hok _ Hl) as (_ & Hm & Hprev & _).
  pose proof (Ht _ Hl) as Htr. cbn [fst snd] in Htr, Hprev, Hm.
  destruct (live_has_data evs id meta Hl) as [fd Hget]. fold st in Hget.
  exists fd. split; [exact Hget|].
  assert (Hle : (now >? expirationTime meta) = false) by lia.
  unfold download, preview.
  rewrite Hfind, Htr, Hprev, Hget, Hle. cbn [negb]. unfold respond.
  rewrite (disposition_ok "attachment" _ eq_refl Hname).
  rewrite (disposition_ok "inline" _ eq_refl Hname).
  rewrite (allowed_header_ok _ Hm). auto.
Qed.

Lemma unexpired_read_serves_witness :
  exists fd,
    JsMap.get (fileStorage Sample.onlyA) Sample.uuidA = Some fd /\
    download Sample.onlyA (shortCode Sample.metaA) (expirationTime Sample.metaA) =
      (Send ("attachment; filename=" ++ dquote ++ originalName Sample.metaA ++ dquote)
            (mimetype Sample.metaA) (buffer fd), Sample.onlyA) /\
    preview Sample.onlyA (shortCode Sample.metaA) (expirationTime Sample.metaA) =
      (Send ("inline; filename=" ++ dquote ++ originalName Sample.metaA ++ dquote)
            (mimetype Sample.metaA) (buffer fd), Sample.onlyA).
Proof.
  apply (unexpired_read_serves Sample.onlyA Sample.uuidA Sample.metaA
           (expirationTime Sample.metaA)).
  - exists [Sample.upA]. split; reflexivity.
  - left; reflexivity.
  - intros id' meta' [H|[]] _. now inversion H.
  - reflexivity.
  - apply Z.le_refl.
Defined.

(** X13.  A download, a preview or a timer callback never adds or alters
    an entry: every entry of either map after the step was in that map
    before it. *)
Theorem reads_never_add (st : Store) (ev : Event) :
  is_upload ev = false ->
  (forall e, In e (fileStorage (step st ev)) -> In e (fileStorage st)) /\
  (forall e, In e (fileMetadata (step st ev)) -> In e (fileMetadata st)).
Proof.
  intro Hev.
  destruct (step_cases st ev) as [->|[[id ->]|(f & u & r & n & c & -> & _)]];
    [auto | | discriminate Hev].
  split; intros e He; cbn in He; apply in_delete in He; tauto.
Qed.

Lemma reads_never_add_witness :
  (forall e, In e (fileStorage (step Sample.clash (EDownload "HSQ0K9" Sample.late))) ->
             In e (fileStorage Sample.clash)) /\
  (forall e, In e (fileMetadata (step Sample.clash (EDownload "HSQ0K9" Sample.late))) ->
             In e (fileMetadata Sample.clash)).
Proof.
  apply (reads_never_add Sample.clash (EDownload "HSQ0K9" Sample.late)).
  reflexivity.
Defined.

(** X14.  After any sequence of operations the payload of a resolved code
    is always there: neither download nor preview ever answers with the 404
    of missing file data. *)
Theorem no_missing_data (evs : list Event) (code : string) (now : Z) :
  fst (download (run init evs) code now) <> Json 404 "File data not found" /\
  fst (preview (run init evs) code now) <> Json 404 "File data not found".
Proof.
  set (st := run init evs).
  unfold download, preview.
  destruct (findByCode st code) as [[id meta]|] eqn:F; [|split; discriminate].
  apply findByCode_some in F as [Hl _].
  destruct (live_has_data evs id meta Hl) as [fd Hget]. fold st in Hget.
  rewrite Hget.
  destruct (negb (Js.truthy id)); [split; discriminate|].
  assert (R : forall d f, respond d f meta fd <> Json 404 "File data not found").
  { intros d f. unfold respond.
    repeat match goal with
           | |- context [if ?b then _ else _] => destruct b
           end; discriminate. }
  destruct (negb (previewable meta)), (now >? expirationTime meta);
    cbn [fst]; split; try discriminate; apply R.
Qed.

(** X15.  Upload followed by the timer of its id is a round trip: when the
    id is new to both maps, the timer callback applied to the store an
    upload returns gives back the store the upload started from. *)
Theorem upload_then_timer (st : Store) (part : option File)
    (uuid r36 : string) (now clock : Z) :
  ~ In uuid (JsMap.keys (fileStorage st)) ->
  ~ In uuid (JsMap.keys (fileMetadata st)) ->
  cleanup (snd (upload st part uuid r36 now clock)) uuid = st.
Proof.
  intros Hs Hm.
  assert (Hno : cleanup st uuid = st).
  { unfold cleanup. destruct (JsMap.has (fileStorage st) uuid) eqn:E; [|reflexivity].
    apply has_keys in E. contradiction. }
  unfold upload. destruct part as [file|]; [|exact Hno].
  destruct (upload_single (Some file)) as [e|req] eqn:E; [exact Hno|].
  apply upload_single_pass in E as (-> & _ & _).
  unfold upload_handler, cleanup. cbn [snd fileStorage fileMetadata].
  unfold JsMap.has. rewrite get_set_eq.
  rewrite (delete_set_absent _ _ _ Hs), (delete_set_absent _ _ _ Hm).
  now destruct st.
Qed.

Lemma upload_then_timer_witness :
  cleanup (snd (upload Sample.onlyA (Some Sample.fileB) Sample.uuidB Sample.drawB 2000 2000))
          Sample.uuidB
  = Sample.onlyA.
Proof.
  apply (upload_then_timer Sample.onlyA (Some Sample.fileB) Sample.uuidB
           Sample.drawB 2000 2000);
    simpl; intros [H|[]]; discriminate H.
Defined.

Section Timers.

Lemma cleanup_evict_synced (st : Store) (id : string) :
  synced st -> cleanup st id = evict st id.
Proof.
  intro Hs. unfold cleanup.
  destruct (JsMap.has (fileStorage st) id) eqn:E; [reflexivity|].
  assert (Hn : ~ In id (JsMap.keys (fileStorage st))).
  { intro Hin. apply has_keys in Hin. congruence. }
  unfold evict. rewrite (delete_absent _ _ Hn).
  rewrite Hs in Hn. rewrite (delete_absent _ _ Hn). now destruct st.
Qed.

Lemma timers_empty (ks : list string) :
  forall st,
    synced st ->
    (forall k, In k (JsMap.keys (fileMetadata st)) -> In k ks) ->
    run st (map ETimer ks) = init.
Proof.
  induction ks as [|k ks IH]; intros st Hs Hall.
  - destruct st as [s m]. unfold synced in Hs. cbn in *.
    destruct m as [|[k v] m]; [|exfalso; apply (Hall k); now left].
    destruct s; [reflexivity | discriminate].
  - cbn [map run fold_left step]. apply IH.
    + destruct (cleanup_cases st k) as [->| ->]; auto using synced_evict.
    + intros k' Hin. rewrite (cleanup_evict_synced _ _ Hs) in Hin.
      cbn in Hin. apply in_map_iff in Hin as [e [<- He]].
      apply in_delete in He as [He Hne].
      destruct (Hall (fst e)) as [->|H]; [now apply in_map | contradiction | exact H].
Qed.

End Timers.

(** X16.  Expiry by timer alone empties the store: after any sequence of
    operations, once the timer callback of every stored id has run, both
    maps are empty. *)
Theorem timers_empty_store (evs : list Event) :
  run (run init evs) (map ETimer (JsMap.keys (fileMetadata (run init evs)))) = init.
Proof.
  apply timers_empty; [apply synced_run | auto].
Qed.
